(** * warc-embed-netlify: the edge functions and their range polyfill

    A shallow embedding of the four edge functions of the repository
    ([archive.js], [archive-wacz.js], [archive-warc-gz.js] and the embed
    templating function) together with the fragment of the JavaScript
    runtime they rely on: string primitives, [parseInt], the coercions of
    the arithmetic and comparison operators, [ArrayBuffer.prototype.slice],
    [Headers], [Response] and [fetch].

    Conventions of the model.
    - A JavaScript string is a [string]: a sequence of 8-bit code units, which
      is what a header value (a byte string) is.
    - A JavaScript number is [NaN] or an exact integer.  The code only ever
      produces integers (byte offsets and lengths); the model is exact as long
      as they stay below 2^53, which byte offsets of objects held in memory do.
    - An object used as a map ([returnHeaders], a [Headers] object) is a
      [gmap string string] keyed by the lower-case header name. *)

From Stdlib Require Import ZArith NArith Ascii String List Bool Lia.
From Stdlib Require Import Numbers.DecimalString Numbers.DecimalN Numbers.DecimalPos.
From stdpp Require Import base option list gmap strings.

Local Open Scope Z_scope.

(** ** Strings *)

Module Str.

(** The code units after the first [n]. *)
Fixpoint drop (n : nat) (s : string) : string :=
  match n, s with
  | O, _ => s
  | S _, EmptyString => EmptyString
  | S k, String _ s' => drop k s'
  end.

Fixpoint rev_append (s acc : string) : string :=
  match s with
  | EmptyString => acc
  | String c s' => rev_append s' (String c acc)
  end.

Definition rev (s : string) : string := rev_append s EmptyString.

(** [s.startsWith(p)] *)
Fixpoint startsWith (p s : string) : bool :=
  match p with
  | EmptyString => true
  | String a p' =>
      match s with
      | EmptyString => false
      | String b s' => Ascii.eqb a b && startsWith p' s'
      end
  end.

(** [s.endsWith(p)] *)
Definition endsWith (p s : string) : bool := startsWith (rev p) (rev s).

(** [s.includes(p)]: [p] occurs at some position of [s]. *)
Fixpoint includes (p s : string) : bool :=
  startsWith p s ||
  match s with
  | EmptyString => false
  | String _ s' => includes p s'
  end.

(** GetSubstitution for a string pattern (no capture groups): in the
    replacement template [$$] stands for a dollar sign, [$&] for the matched
    text, [$`] for the text before the match and [$'] for the text after it;
    every other code unit, also a dollar sign followed by anything else, is
    copied. *)
Fixpoint GetSubstitution (matched before after template : string) : string :=
  match template with
  | EmptyString => EmptyString
  | String "$" (String "$" t) =>
      String "$" (GetSubstitution matched before after t)
  | String "$" (String "&" t) =>
      matched +:+ GetSubstitution matched before after t
  | String "$" (String "`" t) =>
      before +:+ GetSubstitution matched before after t
  | String "$" (String "'" t) =>
      after +:+ GetSubstitution matched before after t
  | String c t => String c (GetSubstitution matched before after t)
  end.

(** [s.replace(pat, rep)] with a string pattern: only the first occurrence
    is replaced.  [before] is the text already passed over. *)
Fixpoint replace_from (pat rep before s : string) : string :=
  if startsWith pat s
  then GetSubstitution pat before (drop (String.length pat) s) rep
         +:+ drop (String.length pat) s
  else match s with
       | EmptyString => EmptyString
       | String c s' =>
           String c (replace_from pat rep (before +:+ String c EmptyString) s')
       end.

Definition replace (pat rep s : string) : string :=
  replace_from pat rep EmptyString s.

(** [s.replaceAll(pat, rep)] with a string pattern: every occurrence, found
    left to right without overlap, is replaced.  [skip] counts the code
    units of the current match still to be passed over. *)
Fixpoint replaceAll_from (pat rep : string) (skip : nat) (before s : string)
  : string :=
  match skip with
  | S k =>
      match s with
      | EmptyString => EmptyString
      | String c s' =>
          replaceAll_from pat rep k (before +:+ String c EmptyString) s'
      end
  | O =>
      if startsWith pat s
      then GetSubstitution pat before (drop (String.length pat) s) rep +:+
           match s with
           | EmptyString => EmptyString
           | String c s' =>
               match String.length pat with
               | O => String c (replaceAll_from pat rep O
                                  (before +:+ String c EmptyString) s')
               | S k => replaceAll_from pat rep k
                          (before +:+ String c EmptyString) s'
               end
           end
      else match s with
           | EmptyString => EmptyString
           | String c s' =>
               String c (replaceAll_from pat rep O
                           (before +:+ String c EmptyString) s')
           end
  end.

Definition replaceAll (pat rep s : string) : string :=
  replaceAll_from pat rep O EmptyString s.

(** Put a code unit in front of the first piece of a split. *)
Definition push_front (c : ascii) (l : list string) : list string :=
  match l with
  | [] => [String c EmptyString]
  | h :: t => String c h :: t
  end.

Fixpoint split_from (sep : string) (skip : nat) (s : string) : list string :=
  match s with
  | EmptyString => [EmptyString]
  | String c s' =>
      match skip with
      | S k => split_from sep k s'
      | O =>
          if startsWith sep s
          then EmptyString :: split_from sep (String.length sep - 1) s'
          else push_front c (split_from sep O s')
      end
  end.

Fixpoint code_units (s : string) : list string :=
  match s with
  | EmptyString => []
  | String c s' => String c EmptyString :: code_units s'
  end.

(** [s.split(sep)] with a string separator and no limit. *)
Definition split (sep s : string) : list string :=
  match sep with
  | EmptyString => code_units s
  | _ => split_from sep O s
  end.

(** White space and line terminators among the 8-bit code units:
    TAB, LF, VT, FF, CR, SP and NBSP. *)
Definition is_whitespace (c : ascii) : bool :=
  let n := N_of_ascii c in
  ((9 <=? n) && (n <=? 13) || (n =? 32) || (n =? 160))%N.

Fixpoint trimStart (s : string) : string :=
  match s with
  | EmptyString => EmptyString
  | String c s' => if is_whitespace c then trimStart s' else s
  end.

Definition trim (s : string) : string := rev (trimStart (rev (trimStart s))).

End Str.

(** ** Numbers and values *)

(** JavaScript numbers are binary64.  The functions form theirs from digit
    strings and byte lengths, with [parseInt], [- 1], [+ 1] and [>=]: they
    are [NaN] or integers, and an integer is taken here with its exact
    value.  Binary64 agrees with that while the integers stay within
    [Js.MAX_SAFE_INTEGER].  Beyond it [parseInt] and [-] round to the
    nearest binary64 number, and from 10^21 a number prints with an exponent;
    the operations of [Js] do not follow the code there.  The length of a
    body held in memory is within the range; the statements about numbers
    read from a header name the range as a hypothesis. *)
Inductive Number : Type :=
| NaN
| Int (z : Z).

(** The primitive values the functions handle. *)
Inductive Value : Type :=
| VUndefined
| VNull
| VString (s : string)
| VNumber (n : Number).

Module Js.

(** [Number.MAX_SAFE_INTEGER], 2^53 - 1: binary64 holds every integer up
    to it, and computes [- 1] and [+ 1] exactly below it. *)
Definition MAX_SAFE_INTEGER : Z := 9007199254740991.

(** *** Number to string *)

Definition string_of_N (n : N) : string :=
  NilZero.string_of_uint (N.to_uint n).

Definition string_of_Z (z : Z) : string :=
  if z <? 0 then String "-" (string_of_N (Z.to_N (- z)))
  else string_of_N (Z.to_N z).

(** [Number::toString] on [NaN] and on the integers: decimal notation,
    which is what the code prints below 10^21. *)
Definition Number_toString (n : Number) : string :=
  match n with
  | NaN => "NaN"
  | Int z => string_of_Z z
  end.

Definition ToString (v : Value) : string :=
  match v with
  | VUndefined => "undefined"
  | VNull => "null"
  | VString s => s
  | VNumber n => Number_toString n
  end.

(** *** String to number *)

(** The value of a code unit as a digit: 0-9, then a-z or A-Z for 10-35. *)
Definition digit_value (c : ascii) : option N :=
  let n := N_of_ascii c in
  (if (48 <=? n) && (n <=? 57) then Some (n - 48)
   else if (97 <=? n) && (n <=? 122) then Some (n - 87)
   else if (65 <=? n) && (n <=? 90) then Some (n - 55)
   else None)%N.

Definition radix_digit (radix : N) (c : ascii) : option N :=
  match digit_value c with
  | Some d => if (d <? radix)%N then Some d else None
  | None => None
  end.

(** The value of the longest prefix of [s] made of digits of the radix,
    continuing from [acc]; [None] when no digit has been read. *)
Fixpoint leading_digits (radix : N) (acc : option N) (s : string) : option N :=
  match s with
  | EmptyString => acc
  | String c s' =>
      match radix_digit radix c with
      | Some d =>
          leading_digits radix (Some (radix * default 0 acc + d))%N s'
      | None => acc
      end
  end.

(** The value of [s] when all of it is digits of the radix, and at least one. *)
Fixpoint all_digits (radix : N) (acc : option N) (s : string) : option N :=
  match s with
  | EmptyString => acc
  | String c s' =>
      match radix_digit radix c with
      | Some d => all_digits radix (Some (radix * default 0 acc + d))%N s'
      | None => None
      end
  end.

(** A leading sign: its value and the text after it. *)
Definition strip_sign (text : string) : Z * string :=
  if Str.startsWith "-" text then (-1, Str.drop 1 text)
  else if Str.startsWith "+" text then (1, Str.drop 1 text)
  else (1, text).

(** [parseInt(string)] with no radix argument: leading white space is
    skipped, a sign is read, [0x] or [0X] selects radix 16 and anything else
    radix 10, and the longest run of digits is the value (the code rounds
    it to binary64 when it is beyond [MAX_SAFE_INTEGER]). *)
Definition parseInt (v : Value) : Number :=
  let '(sign, text) := strip_sign (Str.trimStart (ToString v)) in
  let '(R, text) :=
    if Str.startsWith "0x" text || Str.startsWith "0X" text
    then (16%N, Str.drop 2 text)
    else (10%N, text) in
  match leading_digits R None text with
  | None => NaN
  | Some n => Int (sign * Z.of_N n)
  end.

Definition literal (radix : N) (sign : Z) (digits : string) : Number :=
  match all_digits radix None digits with
  | None => NaN
  | Some n => Int (sign * Z.of_N n)
  end.

(** StringToNumber on the integer literals: white space is trimmed on both
    sides, the empty text is 0, then an unsigned hexadecimal, octal or
    binary integer, or a decimal integer with an optional sign.  Literals
    with a fraction, an exponent or [Infinity] denote numbers outside the
    integers; they do not occur where the functions convert a string (a
    content-length is a string of digits) and are given [NaN] here. *)
Definition StringToNumber (s : string) : Number :=
  let text := Str.trim s in
  if String.eqb text EmptyString then Int 0
  else if Str.startsWith "0x" text || Str.startsWith "0X" text
  then literal 16 1 (Str.drop 2 text)
  else if Str.startsWith "0o" text || Str.startsWith "0O" text
  then literal 8 1 (Str.drop 2 text)
  else if Str.startsWith "0b" text || Str.startsWith "0B" text
  then literal 2 1 (Str.drop 2 text)
  else let '(sign, digits) := strip_sign text in literal 10 sign digits.

Definition ToNumber (v : Value) : Number :=
  match v with
  | VUndefined => NaN
  | VNull => Int 0
  | VString s => StringToNumber s
  | VNumber n => n
  end.

(** Truthiness. *)
Definition ToBoolean (v : Value) : bool :=
  match v with
  | VUndefined | VNull => false
  | VString s => negb (String.eqb s EmptyString)
  | VNumber NaN => false
  | VNumber (Int z) => negb (z =? 0)
  end.

(** *** Operators *)

(** [a - b], exact on the integers (within [MAX_SAFE_INTEGER] the code
    computes the same). *)
Definition sub (a b : Value) : Number :=
  match ToNumber a, ToNumber b with
  | Int x, Int y => Int (x - y)
  | _, _ => NaN
  end.

(** [a + b]: concatenation as soon as one side is a string. *)
Definition add (a b : Value) : Value :=
  match a, b with
  | VString _, _ | _, VString _ => VString (ToString a +:+ ToString b)
  | _, _ =>
      match ToNumber a, ToNumber b with
      | Int x, Int y => VNumber (Int (x + y))
      | _, _ => VNumber NaN
      end
  end.

(** [a >= b]: two strings are compared by code units, anything else as
    numbers, and a comparison with [NaN] is false. *)
Definition ge (a b : Value) : bool :=
  match a, b with
  | VString x, VString y => negb (String.ltb x y)
  | _, _ =>
      match ToNumber a, ToNumber b with
      | Int x, Int y => y <=? x
      | _, _ => false
      end
  end.

Definition isNaN (v : Value) : bool :=
  match ToNumber v with
  | NaN => true
  | Int _ => false
  end.

(** *** Arrays *)

(** [a[i]]; reading past the end gives [undefined]. *)
Definition get (a : list Value) (i : nat) : Value :=
  default VUndefined (a !! i).

(** [a[i] = v]; writing past the end extends the array. *)
Definition set (a : list Value) (i : nat) (v : Value) : list Value :=
  if decide (i < length a)%nat then <[i:=v]> a
  else a ++ replicate (i - length a) VUndefined ++ [v].

(** [a.includes(x)] on an array of strings. *)
Definition includes (a : list string) (x : string) : bool :=
  existsb (String.eqb x) a.

End Js.

(** ** The range header parser

    [parseRangeHeader] of [archive.js]; [archive-wacz.js] holds the same
    function, letter for letter.  [range] is the value of
    [request.headers.get("range")], a string or [null]; calling [replace] on
    anything but a string throws, and the [catch] clause supplies the default
    pair. *)
Definition parseRangeHeader (range fullContentLength : Value) : list Value :=
  let coord :=
    match range with
    | VString r =>
        let parsedRange := Str.replace "bytes=" EmptyString r in
        VString <$> Str.split "-" parsedRange
    | _ =>
        [VNumber (Int 0); VNumber (Js.sub fullContentLength (VNumber (Int 1)))]
    end in
  let coord := Js.set coord 0 (VNumber (Js.parseInt (Js.get coord 0))) in
  let coord := Js.set coord 1 (VNumber (Js.parseInt (Js.get coord 1))) in
  if Js.isNaN (Js.get coord 1) || Js.ge (Js.get coord 1) fullContentLength
  then Js.set coord 1 (VNumber (Js.sub fullContentLength (VNumber (Int 1))))
  else coord.

(** ** Platform objects *)

(** A [Headers] object: header values by lower-case name. *)
Abbreviation Headers := (gmap string string).

(** A plain object used as a header map ([returnHeaders]); its values are
    converted to strings when a [Response] is built from it. *)
Abbreviation HeaderObject := (gmap string Value).

(** [headers.get(name)]: the value, or [null]. *)
Definition Headers_get (h : Headers) (name : string) : Value :=
  match h !! name with
  | Some v => VString v
  | None => VNull
  end.

Abbreviation ArrayBuffer := (list Byte.byte).

(** ToIntegerOrInfinity on the integer numbers. *)
Definition ToInteger (v : Value) : Z :=
  match Js.ToNumber v with
  | NaN => 0
  | Int z => z
  end.

(** A relative position of [slice] brought into [0, len]: a negative one
    counts from the end. *)
Definition clamp_index (len rel : Z) : Z :=
  if rel <? 0 then Z.max (len + rel) 0 else Z.min rel len.

(** [data.slice(begin, end)] *)
Definition ArrayBuffer_slice (data : ArrayBuffer) (begin end_ : Value)
  : ArrayBuffer :=
  let len := Z.of_nat (length data) in
  let first := clamp_index len (ToInteger begin) in
  let final :=
    match end_ with
    | VUndefined => len
    | _ => clamp_index len (ToInteger end_)
    end in
  let newLen := Z.max (final - first) 0 in
  take (Z.to_nat newLen) (drop (Z.to_nat first) data).

Definition byteLength (data : ArrayBuffer) : Value :=
  VNumber (Int (Z.of_nat (length data))).

(** The incoming request: its method, the search parameters of its URL in
    order, and its headers. *)
Record Request : Type := {
  method : string;
  searchParams : list (string * string);
  headers : Headers;
}.

(** [searchParams.get(name)]: the first value under that name, or [null]. *)
Fixpoint searchParams_get (params : list (string * string)) (name : string)
  : Value :=
  match params with
  | [] => VNull
  | (k, v) :: rest =>
      if String.eqb k name then VString v else searchParams_get rest name
  end.

(** The members of a parsed URL the functions read. *)
Record URL : Type := {
  protocol : string;
  host : string;
  pathname : string;
}.

Inductive Exn : Type :=
| TypeError
| RangeError
| Error (message : string).

(** What a function passes to [new Response(body, init)].  The constructor
    reads [status] and [headers]; an object literal written
    [{status: 405, returnHeaders}] has the members [status] and
    [returnHeaders], and no [headers]. *)
Record ResponseInit : Type := {
  init_status : option Z;
  init_headers : option HeaderObject;
  init_returnHeaders : option HeaderObject;
}.

(** A response, with a body of type [B] or the null body. *)
Record Response (B : Type) : Type := {
  status : Z;
  response_headers : Headers;
  body : option B;
}.
Arguments status {B} _.
Arguments response_headers {B} _.
Arguments body {B} _.

(** Statuses of responses that cannot carry a body. *)
Definition null_body_status (s : Z) : bool :=
  (s =? 101) || (s =? 103) || (s =? 204) || (s =? 205) || (s =? 304).

(** [new Response(body, init)].  The status defaults to 200 and must lie in
    200..599; the headers are those of [init.headers], empty when the member
    is missing; a body with a null-body status is refused. *)
Definition new_Response {B : Type} (b : option B) (init : ResponseInit)
  : Exn + Response B :=
  let s := default 200 (init_status init) in
  if (s <? 200) || (599 <? s) then inl RangeError
  else if bool_decide (is_Some b) && null_body_status s then inl TypeError
  else inr {| status := s;
              response_headers := Js.ToString <$> default ∅ (init_headers init);
              body := b |}.

(** [new Response(text, init)]: a body given as a string brings its type,
    which becomes the content-type unless [init] has one. *)
Definition new_text_Response (text : string) (init : ResponseInit)
  : Exn + Response string :=
  match new_Response (Some text) init with
  | inl e => inl e
  | inr r =>
      inr {| status := status r;
             response_headers :=
               match response_headers r !! "content-type" with
               | Some _ => response_headers r
               | None =>
                   <["content-type" := "text/plain;charset=UTF-8"]>
                     (response_headers r)
               end;
             body := body r |}
  end.

(** One outbound call of [fetch]. *)
Record FetchCall : Type := {
  call_url : string;
  call_method : string;
  call_headers : Headers;
}.

(** What the origin answers. *)
Record OriginResponse : Type := {
  origin_status : Z;
  origin_headers : Headers;
  origin_body : ArrayBuffer;
}.

(** [fetch] rejects on a network failure and resolves with the origin's
    response, whatever its status, otherwise. *)
Inductive FetchResult : Type :=
| NetworkError
| Fetched (response : OriginResponse).

(** ** Effects

    A function runs against a network: [net n call] is the outcome of [call]
    when it is the [n]-th outbound call of the run.  A computation threads the
    log of the calls made so far and ends in a value or in an exception. *)
Definition Network : Type := nat -> FetchCall -> FetchResult.

Definition M (A : Type) : Type :=
  Network -> list FetchCall -> (Exn + A) * list FetchCall.

Definition ret {A} (a : A) : M A := fun _ log => (inr a, log).

Definition throw {A} (e : Exn) : M A := fun _ log => (inl e, log).

Definition bind {A B} (m : M A) (k : A -> M B) : M B :=
  fun net log =>
    match m net log with
    | (inl e, log') => (inl e, log')
    | (inr a, log') => k a net log'
    end.

(** [try { m } catch (err) { ... }] as a value: the exception or the result. *)
Definition attempt {A} (m : M A) : M (Exn + A) :=
  fun net log =>
    match m net log with
    | (r, log') => (inr r, log')
    end.

(** A pure step that may throw. *)
Definition lift {A} (r : Exn + A) : M A := fun _ log => (r, log).

Definition fetch (url method_ : string) (hdrs : Headers) : M OriginResponse :=
  fun net log =>
    let call := {| call_url := url; call_method := method_;
                   call_headers := hdrs |} in
    match net (length log) call with
    | NetworkError => (inl TypeError, log ++ [call])
    | Fetched r => (inr r, log ++ [call])
    end.

Notation "'await' x <- m ; k" := (bind m (fun x => k))
  (at level 10, x name, m at level 100, k at level 200).

(** The outcome of a run from an empty log: the response returned or the
    exception left uncaught, and the outbound calls made. *)
Definition run {A} (m : M A) (net : Network) : (Exn + A) * list FetchCall :=
  m net [].

(** ** The edge functions *)

Section EdgeFunctions.

(** The platform's URL parser: [new URL(text)] gives the parsed URL or
    throws. *)
Variable parseURL : string -> option URL.

(** The list exported by [allowlist.js]. *)
Variable allowlist : list string.

Definition new_URL (v : Value) : Exn + URL :=
  match parseURL (Js.ToString v) with
  | Some u => inr u
  | None => inl TypeError
  end.

(** [{status: s, returnHeaders}]: the header object goes under a member
    that [Response] does not read. *)
Definition init_shorthand (s : Z) (returnHeaders : HeaderObject)
  : ResponseInit :=
  {| init_status := Some s; init_headers := None;
     init_returnHeaders := Some returnHeaders |}.

(** [{status: s, headers: returnHeaders}] *)
Definition init_with_headers (s : Z) (returnHeaders : HeaderObject)
  : ResponseInit :=
  {| init_status := Some s; init_headers := Some returnHeaders;
     init_returnHeaders := None |}.

Definition allowed_method (request : Request) : bool :=
  Js.includes ["GET"; "HEAD"] (method request).

(** The checks on the parsed URL that the three archive functions share:
    the protocol and the allow list.  An [Error] is only logged; its
    message is kept without the quotation marks of the source. *)
Definition check_protocol_and_host (u : URL) : Exn + unit :=
  if negb (Js.includes ["http:"; "https:"] (protocol u))
  then inl (Error "archive-url must start with http(s)://.")
  else if negb (Js.includes allowlist (host u))
  then inl (Error "archive-url points to a domain that is not in the allow list.")
  else inr tt.

(** The test of the probe response, the same in [archive.js] and
    [archive-wacz.js]. *)
Definition supportsRange (response : OriginResponse) : bool :=
  Js.ToBoolean (Headers_get (origin_headers response) "accept-ranges")
  && Js.ToBoolean (Headers_get (origin_headers response) "content-length").

Definition probedByteLength (response : OriginResponse) : Value :=
  if Js.ToBoolean (Headers_get (origin_headers response) "content-length")
  then Headers_get (origin_headers response) "content-length"
  else VNull.

(** [if (response.headers.get("etag")) returnHeaders["etag"] = ...] *)
Definition copy_etag (response : OriginResponse) (returnHeaders : HeaderObject)
  : HeaderObject :=
  if Js.ToBoolean (Headers_get (origin_headers response) "etag")
  then <["etag" := Headers_get (origin_headers response) "etag"]> returnHeaders
  else returnHeaders.

Definition copy_content_range (response : OriginResponse)
    (returnHeaders : HeaderObject) : HeaderObject :=
  if Js.ToBoolean (Headers_get (origin_headers response) "content-range")
  then <["content-range" :=
           Headers_get (origin_headers response) "content-range"]> returnHeaders
  else returnHeaders.

(** [`bytes ${range[0]}-${range[1]}/${archiveByteLength}`] *)
Definition content_range_text (range : list Value) (archiveByteLength : Value)
  : string :=
  "bytes " +:+ Js.ToString (Js.get range 0) +:+ "-"
    +:+ Js.ToString (Js.get range 1) +:+ "/"
    +:+ Js.ToString archiveByteLength.

(** [request.method === "HEAD" ? null : await response.arrayBuffer()] *)
Definition read_body (request : Request) (response : OriginResponse)
  : option ArrayBuffer :=
  if String.eqb (method request) "HEAD" then None
  else Some (origin_body response).

(** [if (archiveByteLength === null && data) archiveByteLength = data.byteLength] *)
Definition measuredByteLength (archiveByteLength : Value)
    (data : option ArrayBuffer) : Value :=
  match archiveByteLength, data with
  | VNull, Some d => byteLength d
  | _, _ => archiveByteLength
  end.

(** [data.slice(range[0], range[1] + 1)] *)
Definition slice_range (range : list Value) (d : ArrayBuffer) : ArrayBuffer :=
  ArrayBuffer_slice d (Js.get range 0)
    (Js.add (Js.get range 1) (VNumber (Int 1))).

(** [`attachment; filename="name"`] *)
Definition attachment (name : string) : string :=
  "attachment; filename=" +:+ String "034" (name +:+ String "034" EmptyString).

(** *** [archive.js] *)

(** Lines 38-69: the file extension, then the protocol and the host. *)
Definition archive_validate (request : Request) : Exn + (Value * string) :=
  let archiveUrl := searchParams_get (searchParams request) "archive-url" in
  match new_URL archiveUrl with
  | inl e => inl e
  | inr parsedArchiveUrl =>
      let fileExtension : option string :=
        if Str.endsWith ".wacz" (pathname parsedArchiveUrl)
        then Some ".wacz" else None in
      let fileExtension :=
        if Str.endsWith ".warc.gz" (pathname parsedArchiveUrl)
        then Some ".warc.gz" else fileExtension in
      match fileExtension with
      | None => inl (Error "archive-url must end with .wacz or .warc.gz.")
      | Some ext =>
          match check_protocol_and_host parsedArchiveUrl with
          | inl e => inl e
          | inr _ => inr (archiveUrl, ext)
          end
      end
  end.

(** Lines 110-130: the origin supports ranges; the request is forwarded. *)
Definition archive_passthrough (request : Request) (archiveUrl : Value)
    (returnHeaders : HeaderObject) : M (Response ArrayBuffer) :=
  await response <- fetch (Js.ToString archiveUrl) (method request)
                      (headers request);
  let data := read_body request response in
  let returnHeaders :=
    <["content-length" :=
        Headers_get (origin_headers response) "content-length"]> returnHeaders in
  let returnHeaders := copy_etag response returnHeaders in
  let returnHeaders := copy_content_range response returnHeaders in
  lift (new_Response data
          (init_with_headers (origin_status response) returnHeaders)).

(** Lines 134-158: the polyfill. *)
Definition archive_polyfill (request : Request) (archiveUrl : Value)
    (returnHeaders : HeaderObject) (archiveByteLength : Value)
  : M (Response ArrayBuffer) :=
  let method_ :=
    if Js.ToBoolean archiveByteLength then method request else "GET" in
  await response <- fetch (Js.ToString archiveUrl) method_ ∅;
  let data := read_body request response in
  let archiveByteLength := measuredByteLength archiveByteLength data in
  let range :=
    parseRangeHeader (Headers_get (headers request) "range")
      archiveByteLength in
  let data := slice_range range <$> data in
  let returnHeaders :=
    <["content-range" :=
        VString (content_range_text range archiveByteLength)]> returnHeaders in
  let returnHeaders :=
    <["content-length" :=
        VString (Js.ToString
                   (match data with
                    | Some d => byteLength d
                    | None => VNumber (Int 0)
                    end))]> returnHeaders in
  let returnHeaders := copy_etag response returnHeaders in
  lift (new_Response data (init_with_headers 206 returnHeaders)).

Definition archive (request : Request) : M (Response ArrayBuffer) :=
  let returnHeaders : HeaderObject :=
    <["accept-ranges" := VString "bytes"]>
      {["access-control-allow-origin" := VString "*"]} in
  if negb (allowed_method request)
  then lift (new_Response None (init_shorthand 405 returnHeaders))
  else
    match archive_validate request with
    | inl err => lift (new_Response None (init_shorthand 400 returnHeaders))
    | inr (archiveUrl, fileExtension) =>
        let returnHeaders :=
          if String.eqb fileExtension ".wacz"
          then <["content-disposition" :=
                   VString (attachment "archive.wacz")]>
                 (<["content-type" := VString "binary/octet-stream"]>
                    returnHeaders)
          else <["content-disposition" :=
                   VString (attachment "archive.warc.gz")]>
                 (<["content-type" := VString "application/x-gzip"]>
                    returnHeaders) in
        await probe <- attempt (fetch (Js.ToString archiveUrl) "HEAD" ∅);
        match probe with
        | inl err =>
            lift (new_Response None (init_shorthand 404 returnHeaders))
        | inr response =>
            if supportsRange response
            then archive_passthrough request archiveUrl returnHeaders
            else archive_polyfill request archiveUrl returnHeaders
                   (probedByteLength response)
        end
    end.

(** *** [archive-wacz.js] *)

(** Lines 38-59. *)
Definition archive_wacz_validate (request : Request) : Exn + Value :=
  let archiveUrl := searchParams_get (searchParams request) "archive-url" in
  match new_URL archiveUrl with
  | inl e => inl e
  | inr parsedArchiveUrl =>
      if negb (Str.endsWith ".wacz" (pathname parsedArchiveUrl))
      then inl (Error "archive-url must point to a warc.gz file.")
      else
        match check_protocol_and_host parsedArchiveUrl with
        | inl e => inl e
        | inr _ => inr archiveUrl
        end
  end.

(** Lines 89-109. *)
Definition archive_wacz_passthrough (request : Request) (archiveUrl : Value)
    (returnHeaders : HeaderObject) : M (Response ArrayBuffer) :=
  await response <- fetch (Js.ToString archiveUrl) (method request)
                      (headers request);
  let data := read_body request response in
  let returnHeaders :=
    <["content-disposition" := VString (attachment "archive.wacz")]>
      returnHeaders in
  let returnHeaders :=
    <["content-length" :=
        Headers_get (origin_headers response) "content-length"]> returnHeaders in
  let returnHeaders := copy_etag response returnHeaders in
  let returnHeaders := copy_content_range response returnHeaders in
  lift (new_Response data
          (init_with_headers (origin_status response) returnHeaders)).

(** Lines 113-141.  The length of the body is read off [data] without a
    test: [data.byteLength] throws when [data] is [null]. *)
Definition archive_wacz_polyfill (request : Request) (archiveUrl : Value)
    (returnHeaders : HeaderObject) (archiveByteLength : Value)
  : M (Response ArrayBuffer) :=
  let method_ :=
    if Js.ToBoolean archiveByteLength then method request else "GET" in
  await response <- fetch (Js.ToString archiveUrl) method_ ∅;
  let data := read_body request response in
  let archiveByteLength := measuredByteLength archiveByteLength data in
  let range :=
    parseRangeHeader (Headers_get (headers request) "range")
      archiveByteLength in
  let data := slice_range range <$> data in
  let returnHeaders :=
    <["content-disposition" := VString (attachment "archive.wacz")]>
      returnHeaders in
  let returnHeaders :=
    <["content-range" :=
        VString (content_range_text range archiveByteLength)]> returnHeaders in
  match data with
  | None => throw TypeError
  | Some d =>
      let returnHeaders :=
        <["content-length" := VString (Js.ToString (byteLength d))]>
          returnHeaders in
      let returnHeaders := copy_etag response returnHeaders in
      lift (new_Response data (init_with_headers 206 returnHeaders))
  end.

Definition archive_wacz (request : Request) : M (Response ArrayBuffer) :=
  let returnHeaders : HeaderObject :=
    <["content-type" := VString "binary/octet-stream"]>
      (<["accept-ranges" := VString "bytes"]>
         {["access-control-allow-origin" := VString "*"]}) in
  if negb (allowed_method request)
  then lift (new_Response None (init_shorthand 405 returnHeaders))
  else
    match archive_wacz_validate request with
    | inl err => lift (new_Response None (init_shorthand 400 returnHeaders))
    | inr archiveUrl =>
        await probe <- attempt (fetch (Js.ToString archiveUrl) "HEAD" ∅);
        match probe with
        | inl err =>
            lift (new_Response None (init_shorthand 404 returnHeaders))
        | inr response =>
            if supportsRange response
            then archive_wacz_passthrough request archiveUrl returnHeaders
            else archive_wacz_polyfill request archiveUrl returnHeaders
                   (probedByteLength response)
        end
    end.

(** *** [archive-warc-gz.js] *)

(** Lines 28-48. *)
Definition archive_warc_gz_validate (request : Request) : Exn + Value :=
  let archiveUrl := searchParams_get (searchParams request) "archive-url" in
  match new_URL archiveUrl with
  | inl e => inl e
  | inr parsedArchiveUrl =>
      if negb (Str.endsWith ".warc.gz" (pathname parsedArchiveUrl))
      then inl (Error "archive-url must point to a warc.gz file.")
      else
        match check_protocol_and_host parsedArchiveUrl with
        | inl e => inl e
        | inr _ => inr archiveUrl
        end
  end.

(** Lines 53-65: the body of the [try]. *)
Definition archive_warc_gz_serve (archiveUrl : Value)
    (returnHeaders : HeaderObject) : M (Response ArrayBuffer) :=
  await response <- fetch (Js.ToString archiveUrl) "GET" ∅;
  let data := origin_body response in
  let returnHeaders :=
    <["content-type" := VString "application/x-gzip"]> returnHeaders in
  let returnHeaders :=
    <["content-disposition" := VString (attachment "archive.warc.gz")]>
      returnHeaders in
  let returnHeaders := copy_etag response returnHeaders in
  lift (new_Response (Some data) (init_shorthand 200 returnHeaders)).

Definition archive_warc_gz (request : Request) : M (Response ArrayBuffer) :=
  let returnHeaders : HeaderObject :=
    {["access-control-allow-origin" := VString "*"]} in
  if negb (allowed_method request)
  then lift (new_Response None (init_shorthand 405 returnHeaders))
  else
    match archive_warc_gz_validate request with
    | inl err => lift (new_Response None (init_shorthand 400 returnHeaders))
    | inr archiveUrl =>
        await served <- attempt (archive_warc_gz_serve archiveUrl returnHeaders);
        match served with
        | inl err =>
            lift (new_Response None (init_shorthand 404 returnHeaders))
        | inr response => ret response
        end
    end.

(** *** The embed function *)

(** [context]: [next()] gives the response that serves the static page
    (and is taken to resolve). *)
Record Context : Type := {
  next : Response string;
}.

(** Lines 28-37. *)
Definition embed_validate (request : Request) : Exn + (Value * Value) :=
  let archiveUrl := searchParams_get (searchParams request) "archive-url" in
  let originalUrl := searchParams_get (searchParams request) "original-url" in
  match new_URL archiveUrl with
  | inl e => inl e
  | inr _ =>
      match new_URL originalUrl with
      | inl e => inl e
      | inr _ => inr (archiveUrl, originalUrl)
      end
  end.

(** [archiveUrl.includes("wacz") ? "wacz" : "warc.gz"]; the method call
    throws on anything but a string. *)
Definition embed_format (archiveUrl : Value) : Exn + string :=
  match archiveUrl with
  | VString u => inr (if Str.includes "wacz" u then "wacz" else "warc.gz")
  | _ => inl TypeError
  end.

(** Lines 45-47: the three substitutions, in order. *)
Definition embed_page (page : string) (archiveUrl originalUrl : Value)
  : Exn + string :=
  let page := Str.replaceAll "{{original-url}}" (Js.ToString originalUrl) page in
  let page := Str.replaceAll "{{archive-url}}" (Js.ToString archiveUrl) page in
  match embed_format archiveUrl with
  | inl e => inl e
  | inr format => inr (Str.replaceAll "{{format}}" format page)
  end.

Definition embed (request : Request) (context : Context)
  : Exn + Response string :=
  let returnHeaders : HeaderObject :=
    {["access-control-allow-origin" := VString "*"]} in
  if negb (allowed_method request)
  then new_Response None (init_shorthand 405 returnHeaders)
  else
    match embed_validate request with
    | inl err => new_Response None (init_shorthand 400 returnHeaders)
    | inr (archiveUrl, originalUrl) =>
        let response := next context in
        let page := default EmptyString (body response) in
        match embed_page page archiveUrl originalUrl with
        | inl e => inl e
        | inr page =>
            (* for (const [key, value] of Object.entries(returnHeaders))
                 response.headers.set(key, value) *)
            let response_headers' :=
              (Js.ToString <$> returnHeaders) ∪ response_headers response in
            new_text_Response page
              {| init_status := Some (status response);
                 init_headers := Some (VString <$> response_headers');
                 init_returnHeaders := None |}
        end
    end.

End EdgeFunctions.

(** ** Sample inputs *)

Module Sample.

Fixpoint until_slash (s : string) : string * string :=
  match s with
  | EmptyString => (EmptyString, "/")
  | String "/" _ => (EmptyString, s)
  | String c s' => let '(h, p) := until_slash s' in (String c h, p)
  end.

(** A URL parser for [http(s)://host/path] texts, enough for the examples. *)
Definition parseURL (text : string) : option URL :=
  if Str.startsWith "https://" text
  then let '(h, p) := until_slash (Str.drop 8 text) in
       Some {| protocol := "https:"; host := h; pathname := p |}
  else if Str.startsWith "http://" text
  then let '(h, p) := until_slash (Str.drop 7 text) in
       Some {| protocol := "http:"; host := h; pathname := p |}
  else None.

Definition allowlist : list string := ["allowed.example"].

Definition bytes_of (s : string) : ArrayBuffer := String.list_byte_of_string s.

(** An object of ten bytes. *)
Definition object : ArrayBuffer := bytes_of "0123456789".

Definition request (method_ url : string) (hdrs : Headers) : Request :=
  {| method := method_; searchParams := [("archive-url", url)];
     headers := hdrs |}.

(** An origin without range support that does not announce a length. *)
Definition plain_origin : Network :=
  fun _ call =>
    Fetched {| origin_status := 200; origin_headers := ∅;
               origin_body :=
                 if String.eqb (call_method call) "HEAD" then []
                 else object |}.

(** An origin without range support that announces the length. *)
Definition sized_origin : Network :=
  fun _ call =>
    Fetched {| origin_status := 200;
               origin_headers := {["content-length" := "10"]};
               origin_body :=
                 if String.eqb (call_method call) "HEAD" then []
                 else object |}.

(** An origin that answers the probe and then becomes unreachable. *)
Definition vanishing_origin : Network :=
  fun n call =>
    match n with
    | O => Fetched {| origin_status := 200;
                      origin_headers :=
                        <["accept-ranges" := "bytes"]>
                          {["content-length" := "10"]};
                      origin_body := [] |}
    | _ => NetworkError
    end.

(** An origin that does not hold the object: every answer is a 404 page. *)
Definition missing_origin : Network :=
  fun _ call =>
    Fetched {| origin_status := 404; origin_headers := ∅;
               origin_body :=
                 if String.eqb (call_method call) "HEAD" then []
                 else bytes_of "Not Found" |}.

Definition unreachable : Network := fun _ _ => NetworkError.

(** An origin without range support that answers the probe and then
    becomes unreachable. *)
Definition vanishing_plain_origin : Network :=
  fun n call =>
    match n with
    | O => Fetched {| origin_status := 200; origin_headers := ∅;
                      origin_body := [] |}
    | _ => NetworkError
    end.

Definition wacz_url : string := "https://allowed.example/a.wacz".

Definition warc_gz_url : string := "https://allowed.example/a.warc.gz".

(** What [sized_origin] answers to the probe. *)
Definition sized_probe : OriginResponse :=
  {| origin_status := 200; origin_headers := {["content-length" := "10"]};
     origin_body := [] |}.

(** What [sized_origin] answers to a [GET]. *)
Definition sized_transfer : OriginResponse :=
  {| origin_status := 200; origin_headers := {["content-length" := "10"]};
     origin_body := object |}.

(** The page served under the embed function. *)
Definition page : Response string :=
  {| status := 200; response_headers := ∅;
     body := Some "<replay-web-page format={{format}}>" |}.

(** An origin with range support that serves the bytes 2 to 5 of the
    object to any transfer. *)
Definition ranged_probe : OriginResponse :=
  {| origin_status := 200;
     origin_headers :=
       <["accept-ranges" := "bytes"]> {["content-length" := "10"]};
     origin_body := [] |}.



(** An origin with range support that finds the client's copy current. *)
Definition not_modified : OriginResponse :=
  {| origin_status := 304; origin_headers := {["etag" := "v1"]};
     origin_body := [] |}.

Definition not_modified_origin : Network :=
  fun n _ =>
    match n with
    | O => Fetched ranged_probe
    | _ => Fetched not_modified
    end.

(** An archive in the other format, under a directory named after this
    one. *)
Definition embed_request : Request :=
  {| method := "GET";
     searchParams :=
       [("archive-url", "https://allowed.example/wacz/a.warc.gz");
        ("original-url", "https://example.org/")];
     headers := ∅ |}.

(** A page with a style sheet and the three placeholders. *)
Definition template_page : Response string :=
  {| status := 200; response_headers := ∅;
     body :=
       Some ("<style>body { margin: 0 }</style>"
               +:+ "<replay-web-page source={{archive-url}}"
               +:+ " url={{original-url}} format={{format}}>") |}.

(** An archive of the same format with no other name in its URL. *)
Definition warc_gz_embed_request : Request :=
  {| method := "GET";
     searchParams :=
       [("archive-url", "https://allowed.example/a.warc.gz");
        ("original-url", "https://example.org/")];
     headers := ∅ |}.

End Sample.

(** ** Vocabulary of the statements *)

(** A decimal digit. *)
Definition is_digit (c : ascii) : bool :=
  ((48 <=? N_of_ascii c) && (N_of_ascii c <=? 57))%N.

Fixpoint digits_only (s : string) : bool :=
  match s with
  | EmptyString => true
  | String c s' => is_digit c && digits_only s'
  end.

(** The end position the parser settles on, from what [parseInt] read. *)
Definition clamped_end (parsed : Number) (fullContentLength : Value) : Number :=
  if Js.isNaN (VNumber parsed) || Js.ge (VNumber parsed) fullContentLength
  then Js.sub fullContentLength (VNumber (Int 1))
  else parsed.

(** The array the parser starts from: the pieces of the header, or the
    default pair. *)
Definition initial_coord (range fullContentLength : Value) : list Value :=
  match range with
  | VString r => VString <$> Str.split "-" (Str.replace "bytes=" EmptyString r)
  | _ => [VNumber (Int 0); VNumber (Js.sub fullContentLength (VNumber (Int 1)))]
  end.

(** The probe: a [HEAD] request to the archive, with no header. *)
Definition probe_call (archiveUrl : Value) : FetchCall :=
  {| call_url := Js.ToString archiveUrl; call_method := "HEAD";
     call_headers := ∅ |}.

(** The transfer of the polyfill: no header either. *)
Definition polyfill_call (archiveUrl : Value) (method_ : string) : FetchCall :=
  {| call_url := Js.ToString archiveUrl; call_method := method_;
     call_headers := ∅ |}.

(** The transfer of the pass-through: the method and headers of the client. *)
Definition passthrough_call (archiveUrl : Value) (request : Request) : FetchCall :=
  {| call_url := Js.ToString archiveUrl; call_method := method request;
     call_headers := headers request |}.

(** [returnHeaders] of [archive.js] once the extension is known (line 82). *)
Definition archive_headers (fileExtension : string) : HeaderObject :=
  let returnHeaders : HeaderObject :=
    <["accept-ranges" := VString "bytes"]>
      {["access-control-allow-origin" := VString "*"]} in
  if String.eqb fileExtension ".wacz"
  then <["content-disposition" := VString (attachment "archive.wacz")]>
         (<["content-type" := VString "binary/octet-stream"]> returnHeaders)
  else <["content-disposition" := VString (attachment "archive.warc.gz")]>
         (<["content-type" := VString "application/x-gzip"]> returnHeaders).

(** A response with no header and no body. *)
Definition bare_response (s : Z) : Response ArrayBuffer :=
  {| status := s; response_headers := ∅; body := None |}.

(** The length announced by the probe, when there is one, is [total]. *)
Definition announces (probe : OriginResponse) (total : N) : Prop :=
  match origin_headers probe !! "content-length" with
  | None => True
  | Some c => c = EmptyString \/ c = Js.string_of_N total
  end.

(** The bytes of [data] from position [first] to position [last], both
    included. *)
Definition inclusive_slice (data : ArrayBuffer) (first last : N) : ArrayBuffer :=
  take (N.to_nat (last - first + 1)) (drop (N.to_nat first) data).

(** The invariant the data model gives a byte range against a length:
    two numbers, the end not before the start and below the length. *)
Definition ByteRange_invariant (range : list Value) (totalLength : Z) : Prop :=
  exists first last : Z,
    Js.get range 0 = VNumber (Int first)
    /\ Js.get range 1 = VNumber (Int last)
    /\ last >= first
    /\ last < totalLength.

(** A header is present and not empty. *)
Definition declares (h : Headers) (name : string) : Prop :=
  exists v, h !! name = Some v /\ v <> EmptyString.

(** The two names of a format. *)
Definition format_label (wacz : bool) : string :=
  if wacz then "wacz" else "warc.gz".

(** The page once the two URLs are in place (lines 45-46 of the embed
    function). *)
Definition page_with_urls (page archiveUrl originalUrl : string) : string :=
  Str.replaceAll "{{archive-url}}" archiveUrl
    (Str.replaceAll "{{original-url}}" originalUrl page).

(** What [archive.js] asks of the parsed [archive-url]: a path ending in one
    of the two suffixes, the http or https protocol, a host in the allow
    list. *)
Definition passes_checks (allowlist : list string) (u : URL) : Prop :=
  ((exists p, pathname u = p +:+ ".wacz")
   \/ (exists p, pathname u = p +:+ ".warc.gz"))
  /\ (protocol u = "http:" \/ protocol u = "https:")
  /\ In (host u) allowlist.

(** What [archive.js] answers to a [GET] for the [.warc.gz] sample at
    [Sample.sized_origin]. *)
Definition sample_warc_gz_answer : Response ArrayBuffer :=
  {| status := 206;
     response_headers :=
       Js.ToString <$>
         (<["content-length" := VString "10"]>
            (<["content-range" := VString "bytes 0-9/10"]>
               (archive_headers ".warc.gz")));
     body := Some Sample.object |}.

(** The parts of a page template: text, and the three placeholders. *)
Inductive Part : Type :=
| Text (s : string)
| OriginalUrl
| ArchiveUrl
| Format.

(** A part as the static page has it. *)
Definition placeholder (p : Part) : string :=
  match p with
  | Text s => s
  | OriginalUrl => "{{original-url}}"
  | ArchiveUrl => "{{archive-url}}"
  | Format => "{{format}}"
  end.

(** A part once the values are in. *)
Definition filled_part (archiveUrl originalUrl label : string) (p : Part)
  : string :=
  match p with
  | Text s => s
  | OriginalUrl => originalUrl
  | ArchiveUrl => archiveUrl
  | Format => label
  end.

(** The parts of a template written out one after the other. *)
Definition render (value : Part -> string) (template : list Part) : string :=
  foldr (fun p rest => value p +:+ rest) EmptyString template.

Definition template_text (template : list Part) : string :=
  render placeholder template.

Definition filled (archiveUrl originalUrl label : string)
    (template : list Part) : string :=
  render (filled_part archiveUrl originalUrl label) template.

(** A text that [replaceAll] inserts as it is and in which no placeholder
    starts: no dollar sign, no opening brace. *)
Definition plain (s : string) : Prop :=
  Str.includes "$" s = false /\ Str.includes "{" s = false.

(** Every opening brace of [s] is followed, in [s], by a code unit that is
    not an opening brace: two of them, which open a placeholder, are found
    neither in [s] nor where [s] meets what follows it. *)
Fixpoint single_braces (s : string) : bool :=
  match s with
  | EmptyString => true
  | String c s' =>
      (if Ascii.eqb "{" c
       then match s' with
            | EmptyString => false
            | String c' _ => negb (Ascii.eqb "{" c')
            end
       else true)
      && single_braces s'
  end.

(** What the statement on templates asks of each part: in a text opening
    braces come one at a time, and a URL that is placed is plain. *)
Definition part_fits (archiveUrl originalUrl : string) (p : Part) : Prop :=
  match p with
  | Text s => single_braces s = true
  | OriginalUrl => plain originalUrl
  | ArchiveUrl => plain archiveUrl
  | Format => True
  end.

(** * Facts about the runtime *)

Ltac each_code_unit c :=
  destruct c as [[] [] [] [] [] [] [] []]; try discriminate.

Lemma digit_facts c :
  is_digit c = true ->
  Js.radix_digit 10 c = Some (N_of_ascii c - 48)%N
  /\ Str.is_whitespace c = false
  /\ Ascii.eqb "-" c = false
  /\ Ascii.eqb "+" c = false.
Proof. each_code_unit c; intros _; repeat split. Qed.

Lemma digit_not_letter c :
  is_digit c = true ->
  forall l, In l ["x"; "X"; "o"; "O"; "b"; "B"]%char -> Ascii.eqb l c = false.
Proof.
  each_code_unit c; intros _ l Hl; simpl in Hl;
    repeat (destruct Hl as [<- | Hl]; [reflexivity |]); destruct Hl.
Qed.

(** *** Decimal rendering and reading *)

Lemma string_of_uint_digits d : digits_only (NilEmpty.string_of_uint d) = true.
Proof. induction d; simpl; auto. Qed.

Lemma string_of_N_unfold n :
  Js.string_of_N n = NilEmpty.string_of_uint (N.to_uint n)
  /\ N.to_uint n <> Decimal.Nil.
Proof.
  unfold Js.string_of_N. destruct n as [|p]; [split; [reflexivity | discriminate]|].
  pose proof (DecimalPos.Unsigned.to_uint_nonnil p) as Hp. simpl.
  destruct (Pos.to_uint p); try contradiction; split; solve [reflexivity | discriminate].
Qed.

Lemma string_of_N_digits n : digits_only (Js.string_of_N n) = true.
Proof. destruct (string_of_N_unfold n) as [-> _]. apply string_of_uint_digits. Qed.

Lemma string_of_N_nonempty n : Js.string_of_N n <> EmptyString.
Proof.
  destruct (string_of_N_unfold n) as [-> Hn].
  destruct (N.to_uint n); try contradiction; discriminate.
Qed.

Lemma leading_digits_acc d acc :
  Js.leading_digits 10 (Some (Npos acc)) (NilEmpty.string_of_uint d)
  = Some (Npos (Pos.of_uint_acc d acc)).
Proof.
  revert acc. induction d; intros acc; simpl; [reflexivity | ..];
    unfold Js.radix_digit; simpl; rewrite <- IHd; do 2 f_equal; lia.
Qed.

Lemma leading_digits_zero d :
  Js.leading_digits 10 (Some 0%N) (NilEmpty.string_of_uint d)
  = Some (N.of_uint d).
Proof.
  induction d; simpl; [reflexivity | exact IHd | ..];
    unfold Js.radix_digit; simpl; apply leading_digits_acc.
Qed.

Lemma leading_digits_start s :
  s <> EmptyString -> digits_only s = true ->
  Js.leading_digits 10 None s = Js.leading_digits 10 (Some 0%N) s.
Proof.
  destruct s as [|c s]; [congruence|]. intros _ H. simpl in *.
  apply andb_prop in H as [Hc _].
  destruct (digit_facts c Hc) as [-> _]. reflexivity.
Qed.

Lemma leading_digits_string_of_N n :
  Js.leading_digits 10 None (Js.string_of_N n) = Some n.
Proof.
  rewrite leading_digits_start
    by auto using string_of_N_nonempty, string_of_N_digits.
  destruct (string_of_N_unfold n) as [-> _].
  rewrite leading_digits_zero. f_equal. apply DecimalN.Unsigned.of_to.
Qed.

Lemma all_digits_leading s acc :
  digits_only s = true ->
  Js.all_digits 10 acc s = Js.leading_digits 10 acc s.
Proof.
  revert acc. induction s as [|c s IH]; intros acc H; [reflexivity|].
  simpl in *. apply andb_prop in H as [Hc Hs].
  destruct (digit_facts c Hc) as [-> _]. auto.
Qed.

(** *** Reading a string of digits *)

Lemma trimStart_digits s : digits_only s = true -> Str.trimStart s = s.
Proof.
  destruct s as [|c s]; [reflexivity|]. simpl. intros H.
  apply andb_prop in H as [Hc _].
  destruct (digit_facts c Hc) as (_ & -> & _). reflexivity.
Qed.

Lemma strip_sign_digits s : digits_only s = true -> Js.strip_sign s = (1, s).
Proof.
  destruct s as [|c s]; [reflexivity|]. simpl. intros H.
  apply andb_prop in H as [Hc _].
  destruct (digit_facts c Hc) as (_ & _ & Hm & Hp).
  unfold Js.strip_sign. cbn [Str.startsWith]. rewrite Hm, Hp. reflexivity.
Qed.

Lemma no_radix_prefix s l :
  digits_only s = true ->
  In l ["x"; "X"; "o"; "O"; "b"; "B"]%char ->
  Str.startsWith (String "0" (String l EmptyString)) s = false.
Proof.
  intros H Hl. destruct s as [|c [|c' s]]; cbn [Str.startsWith digits_only] in *.
  - reflexivity.
  - apply andb_false_r.
  - apply andb_prop in H as [_ H]. apply andb_prop in H as [Hc' _].
    rewrite (digit_not_letter c' Hc' l Hl). apply andb_false_r.
Qed.

Lemma parseInt_digits s :
  digits_only s = true ->
  Js.parseInt (VString s)
  = match Js.leading_digits 10 None s with
    | None => NaN
    | Some n => Int (Z.of_N n)
    end.
Proof.
  intros H. unfold Js.parseInt. simpl Js.ToString.
  rewrite (trimStart_digits s H), (strip_sign_digits s H).
  rewrite !no_radix_prefix by (simpl; auto). simpl.
  destruct (Js.leading_digits 10 None s) as [n|]; [|reflexivity].
  f_equal. lia.
Qed.

Lemma parseInt_string_of_N n :
  Js.parseInt (VString (Js.string_of_N n)) = Int (Z.of_N n).
Proof.
  rewrite parseInt_digits by apply string_of_N_digits.
  rewrite leading_digits_string_of_N. reflexivity.
Qed.

Lemma parseInt_empty : Js.parseInt (VString EmptyString) = NaN.
Proof. reflexivity. Qed.

Lemma parseInt_undefined : Js.parseInt VUndefined = NaN.
Proof. reflexivity. Qed.

(** [parseInt] gives back an integer that went through [ToString]. *)
Lemma parseInt_Int z : Js.parseInt (VNumber (Int z)) = Int z.
Proof.
  unfold Js.parseInt. simpl Js.ToString. unfold Js.string_of_Z.
  destruct (Z.ltb_spec z 0) as [Hneg | Hpos].
  - change (Str.trimStart (String "-" ?s)) with (String "-" s).
    change (Js.strip_sign (String "-" ?s)) with (-1, s).
    pose proof (string_of_N_digits (Z.to_N (- z))) as Hd.
    cbv beta iota zeta.
    rewrite !no_radix_prefix by (simpl; auto). simpl.
    rewrite leading_digits_string_of_N. f_equal. lia.
  - pose proof (string_of_N_digits (Z.to_N z)) as Hd.
    rewrite (trimStart_digits _ Hd), (strip_sign_digits _ Hd).
    rewrite !no_radix_prefix by (simpl; auto). simpl.
    rewrite leading_digits_string_of_N. f_equal. lia.
Qed.

(** *** Converting a string of digits *)

Lemma rev_append_digits s acc :
  digits_only s = true -> digits_only acc = true ->
  digits_only (Str.rev_append s acc) = true.
Proof.
  revert acc. induction s as [|c s IH]; intros acc Hs Ha; [exact Ha|].
  simpl in *. apply andb_prop in Hs as [Hc Hs]. apply IH; [exact Hs|].
  simpl. rewrite Hc, Ha. reflexivity.
Qed.

Lemma append_cons c s t : String c s +:+ t = String c (s +:+ t).
Proof. reflexivity. Qed.

Lemma append_nil s : EmptyString +:+ s = s.
Proof. reflexivity. Qed.

Lemma append_empty_r s : s +:+ EmptyString = s.
Proof.
  induction s as [|c s IH]; [reflexivity|].
  rewrite append_cons, IH. reflexivity.
Qed.

Lemma rev_append_rev_append s a b :
  Str.rev_append (Str.rev_append s a) b = Str.rev_append a (s +:+ b).
Proof.
  revert a b. induction s as [|c s IH]; intros a b; [reflexivity|].
  rewrite append_cons. simpl. rewrite IH. reflexivity.
Qed.

Lemma rev_rev s : Str.rev (Str.rev s) = s.
Proof.
  unfold Str.rev. rewrite rev_append_rev_append. simpl. apply append_empty_r.
Qed.

Lemma trim_digits s : digits_only s = true -> Str.trim s = s.
Proof.
  intros H. unfold Str.trim. rewrite (trimStart_digits s H).
  rewrite trimStart_digits by (apply rev_append_digits; auto).
  apply rev_rev.
Qed.

Lemma StringToNumber_string_of_N n :
  Js.StringToNumber (Js.string_of_N n) = Int (Z.of_N n).
Proof.
  pose proof (string_of_N_digits n) as Hd.
  unfold Js.StringToNumber. rewrite (trim_digits _ Hd).
  destruct (String.eqb_spec (Js.string_of_N n) EmptyString) as [He | _];
    [destruct (string_of_N_nonempty n He)|].
  rewrite !no_radix_prefix by (simpl; auto 10). simpl.
  rewrite (strip_sign_digits _ Hd). unfold Js.literal.
  rewrite (all_digits_leading _ _ Hd), leading_digits_string_of_N.
  f_equal. lia.
Qed.

(** *** Arrays *)

Lemma get_set_eq (a : list Value) i v : Js.get (Js.set a i v) i = v.
Proof.
  unfold Js.get, Js.set. case_decide as Hi.
  - rewrite list_lookup_insert_eq by exact Hi. reflexivity.
  - rewrite lookup_app_r by lia. rewrite lookup_app_r by (rewrite length_replicate; lia).
    rewrite length_replicate, Nat.sub_diag. reflexivity.
Qed.

Lemma set_empty v : Js.set [] 0 v = [v].
Proof. reflexivity. Qed.

Lemma set_head x (l : list Value) v : Js.set (x :: l) 0 v = v :: l.
Proof. reflexivity. Qed.

Lemma set_second x y (l : list Value) v : Js.set (x :: y :: l) 1 v = x :: v :: l.
Proof. reflexivity. Qed.

Lemma set_past_single x v : Js.set [x] 1 v = [x; v].
Proof. reflexivity. Qed.

(** *** Splitting at the dash *)

Lemma split_dash s : Str.split "-" s = Str.split_from "-" 0 s.
Proof. reflexivity. Qed.

Lemma split_from_digits s :
  digits_only s = true -> Str.split_from "-" 0 s = [s].
Proof.
  induction s as [|c s IH]; [reflexivity|]. intros H.
  cbn [digits_only] in H. apply andb_prop in H as [Hc Hs].
  destruct (digit_facts c Hc) as (_ & _ & Hm & _).
  cbn [Str.split_from Str.startsWith]. rewrite Hm, (IH Hs). reflexivity.
Qed.

Lemma split_from_digits_dash s t :
  digits_only s = true ->
  Str.split_from "-" 0 (s +:+ String "-" t) = s :: Str.split_from "-" 0 t.
Proof.
  induction s as [|c s IH]; [reflexivity|]. intros H.
  cbn [digits_only] in H. apply andb_prop in H as [Hc Hs].
  destruct (digit_facts c Hc) as (_ & _ & Hm & _).
  rewrite append_cons. cbn [Str.split_from Str.startsWith].
  rewrite Hm, (IH Hs). reflexivity.
Qed.

Lemma replace_bytes_prefix rest :
  Str.replace "bytes=" EmptyString ("bytes=" +:+ rest) = rest.
Proof. destruct rest; reflexivity. Qed.

(** *** The parser on the forms of the header *)

Lemma sub_one len n :
  Js.ToNumber len = Int n -> Js.sub len (VNumber (Int 1)) = Int (n - 1).
Proof. intros H. unfold Js.sub. rewrite H. reflexivity. Qed.

Lemma ge_number z len n :
  Js.ToNumber len = Int n -> Js.ge (VNumber (Int z)) len = (n <=? z).
Proof. intros H. unfold Js.ge. rewrite H. reflexivity. Qed.

(** The parser, step by step: both positions go through [parseInt], the
    second one is clamped, and further pieces are left as they are. *)
Lemma parseRangeHeader_steps range len :
  parseRangeHeader range len
  = VNumber (Js.parseInt (Js.get (initial_coord range len) 0))
      :: VNumber (clamped_end (Js.parseInt (Js.get (initial_coord range len) 1)) len)
      :: drop 2 (initial_coord range len).
Proof.
  unfold parseRangeHeader. fold (initial_coord range len).
  destruct (initial_coord range len) as [|x [|y l]];
    cbv beta zeta; unfold clamped_end;
    repeat first
      [ rewrite set_empty | rewrite set_head | rewrite set_past_single
      | rewrite set_second
      | progress cbn [Js.get lookup list_lookup default from_option id drop] ];
    match goal with |- context [Js.isNaN ?a || Js.ge ?a ?b] =>
      destruct (Js.isNaN a || Js.ge a b) end; reflexivity.
Qed.

Lemma clamped_end_NaN len n :
  Js.ToNumber len = Int n -> clamped_end NaN len = Int (n - 1).
Proof. intros H. unfold clamped_end. cbn. apply sub_one, H. Qed.

Lemma clamped_end_Int z len n :
  Js.ToNumber len = Int n ->
  clamped_end (Int z) len = Int (if n <=? z then n - 1 else z).
Proof.
  intros H. unfold clamped_end. rewrite (ge_number z len n H), (sub_one len n H).
  cbn. destruct (n <=? z); reflexivity.
Qed.

(** Without a string to parse, the range is the whole object. *)
Lemma parseRangeHeader_absent range len n :
  (forall r, range <> VString r) ->
  Js.ToNumber len = Int n ->
  parseRangeHeader range len = [VNumber (Int 0); VNumber (Int (n - 1))].
Proof.
  intros Hr Hn. rewrite parseRangeHeader_steps.
  assert (initial_coord range len = [VNumber (Int 0); VNumber (Int (n - 1))])
    as ->.
  { unfold initial_coord. rewrite (sub_one len n Hn).
    destruct range; try reflexivity. destruct (Hr s eq_refl). }
  cbn [Js.get lookup list_lookup default from_option id drop].
  rewrite !parseInt_Int, (clamped_end_Int _ len n Hn).
  replace (n <=? n - 1) with false by lia. reflexivity.
Qed.

(** The closed form [bytes=A-B]. *)
Lemma parseRangeHeader_closed A B len n :
  Js.ToNumber len = Int n ->
  parseRangeHeader
    (VString ("bytes=" +:+ Js.string_of_N A +:+ "-" +:+ Js.string_of_N B)) len
  = [VNumber (Int (Z.of_N A));
     VNumber (Int (if n <=? Z.of_N B then n - 1 else Z.of_N B))].
Proof.
  intros Hn. rewrite parseRangeHeader_steps.
  assert (initial_coord
            (VString ("bytes=" +:+ Js.string_of_N A +:+ "-" +:+ Js.string_of_N B))
            len
          = [VString (Js.string_of_N A); VString (Js.string_of_N B)]) as ->.
  { unfold initial_coord. rewrite replace_bytes_prefix, split_dash.
    change ("-" +:+ ?t) with (String "-" t).
    rewrite split_from_digits_dash by apply string_of_N_digits.
    rewrite split_from_digits by apply string_of_N_digits. reflexivity. }
  cbn [Js.get lookup list_lookup default from_option id drop].
  rewrite !parseInt_string_of_N, (clamped_end_Int _ len n Hn). reflexivity.
Qed.


(** Whatever the header, the end position is a number below the length. *)
Lemma parseRangeHeader_end range len n :
  Js.ToNumber len = Int n ->
  exists e, Js.get (parseRangeHeader range len) 1 = VNumber (Int e) /\ e < n.
Proof.
  intros Hn. rewrite parseRangeHeader_steps.
  cbn [Js.get lookup list_lookup default from_option].
  destruct (Js.parseInt (Js.get (initial_coord range len) 1)) as [|z].
  - rewrite (clamped_end_NaN len n Hn). exists (n - 1). split; [reflexivity | lia].
  - rewrite (clamped_end_Int z len n Hn). eexists. split; [reflexivity|].
    destruct (Z.leb_spec n z); lia.
Qed.

Lemma split_from_no_dash s :
  Str.includes "-" s = false -> Str.split_from "-" 0 s = [s].
Proof.
  induction s as [|c s IH]; [reflexivity|]. intros H.
  cbn [Str.includes] in H. apply orb_false_elim in H as [Hc Hs].
  cbn [Str.split_from]. rewrite Hc, (IH Hs). reflexivity.
Qed.

(** The form [bytes=A-X] where [X] is not a number. *)
Lemma parseRangeHeader_bad_end A X len n :
  Js.ToNumber len = Int n ->
  Str.includes "-" X = false ->
  Js.parseInt (VString X) = NaN ->
  parseRangeHeader (VString ("bytes=" +:+ Js.string_of_N A +:+ "-" +:+ X)) len
  = [VNumber (Int (Z.of_N A)); VNumber (Int (n - 1))].
Proof.
  intros Hn HX Hnan. rewrite parseRangeHeader_steps.
  assert (initial_coord
            (VString ("bytes=" +:+ Js.string_of_N A +:+ "-" +:+ X)) len
          = [VString (Js.string_of_N A); VString X]) as ->.
  { unfold initial_coord. rewrite replace_bytes_prefix, split_dash.
    change ("-" +:+ ?t) with (String "-" t).
    rewrite split_from_digits_dash by apply string_of_N_digits.
    rewrite split_from_no_dash by exact HX. reflexivity. }
  cbn [Js.get lookup list_lookup default from_option id drop].
  rewrite parseInt_string_of_N, Hnan, (clamped_end_NaN len n Hn). reflexivity.
Qed.

(** *** Search in strings *)

Lemma startsWith_spec p s :
  Str.startsWith p s = true <-> exists v, s = p +:+ v.
Proof.
  revert s. induction p as [|a p IH]; intros s.
  - split; [intros _; exists s; reflexivity | reflexivity].
  - destruct s as [|b s]; cbn [Str.startsWith].
    + split; [discriminate | intros (v & Hv); discriminate].
    + rewrite andb_true_iff, IH, Ascii.eqb_eq. split.
      * intros (-> & v & ->). exists v. reflexivity.
      * intros (v & Hv). rewrite append_cons in Hv. injection Hv as -> ->.
        split; [reflexivity | exists v; reflexivity].
Qed.

Lemma includes_spec p s :
  Str.includes p s = true <-> exists u v, s = u +:+ p +:+ v.
Proof.
  induction s as [|c s IH].
  - cbn [Str.includes]. rewrite orb_false_r, startsWith_spec. split.
    + intros (v & Hv). exists EmptyString, v. exact Hv.
    + intros (u & v & Huv). destruct u as [|c u]; [|discriminate].
      exists v. exact Huv.
  - cbn [Str.includes]. rewrite orb_true_iff, startsWith_spec, IH. split.
    + intros [(v & Hv) | (u & v & ->)].
      * exists EmptyString, v. exact Hv.
      * exists (String c u), v. reflexivity.
    + intros (u & v & Huv). destruct u as [|c' u].
      * left. exists v. exact Huv.
      * right. rewrite append_cons in Huv. injection Huv as -> ->.
        exists u, v. reflexivity.
Qed.

(** *** Substitution in a page *)

Lemma replaceAll_pass pat rep before c s :
  Str.startsWith pat (String c s) = false ->
  Str.replaceAll_from pat rep 0 before (String c s)
  = String c (Str.replaceAll_from pat rep 0 (before +:+ String c EmptyString) s).
Proof. intros H. cbn [Str.replaceAll_from]. rewrite H. reflexivity. Qed.

Lemma brace_free_cons c s :
  Str.includes "{" (String c s) = false ->
  Ascii.eqb "{" c = false /\ Str.includes "{" s = false.
Proof.
  cbn [Str.includes Str.startsWith]. rewrite andb_true_r.
  apply orb_false_elim.
Qed.

(** A pattern that opens with a brace finds nothing in a text without one. *)
Lemma replaceAll_brace_free p rep before s :
  Str.includes "{" s = false ->
  Str.replaceAll_from (String "{" p) rep 0 before s = s.
Proof.
  revert before. induction s as [|c s IH]; intros before H; [reflexivity|].
  apply brace_free_cons in H as [Hc Hs].
  rewrite replaceAll_pass by (cbn [Str.startsWith]; rewrite Hc; reflexivity).
  rewrite IH by exact Hs. reflexivity.
Qed.

Lemma replaceAll_brace_free_prefix p rep before pre t :
  Str.includes "{" pre = false ->
  exists before',
    Str.replaceAll_from (String "{" p) rep 0 before (pre +:+ t)
    = pre +:+ Str.replaceAll_from (String "{" p) rep 0 before' t.
Proof.
  revert before. induction pre as [|c pre IH]; intros before H.
  - exists before. reflexivity.
  - apply brace_free_cons in H as [Hc Hs]. rewrite !append_cons.
    rewrite replaceAll_pass by (cbn [Str.startsWith]; rewrite Hc; reflexivity).
    destruct (IH (before +:+ String c EmptyString) Hs) as (before' & ->).
    exists before'. reflexivity.
Qed.

(** The placeholders of the two URLs do not match at the format
    placeholder. *)
Lemma other_placeholder_passes pat rep before post :
  pat = "{{original-url}}" \/ pat = "{{archive-url}}" ->
  Str.includes "{" post = false ->
  Str.replaceAll_from pat rep 0 before ("{{format}}" +:+ post)
  = "{{format}}" +:+ post.
Proof.
  intros Hpat Hpost. rewrite !append_cons, append_nil.
  destruct Hpat as [-> | ->];
    rewrite !replaceAll_pass by reflexivity;
    rewrite replaceAll_brace_free by exact Hpost; reflexivity.
Qed.

Lemma format_placeholder_replaced (wacz : bool) before post :
  Str.includes "{" post = false ->
  Str.replaceAll_from "{{format}}" (if wacz then "wacz" else "warc.gz") 0
    before ("{{format}}" +:+ post)
  = (if wacz then "wacz" else "warc.gz") +:+ post.
Proof.
  intros Hpost. rewrite !append_cons, append_nil.
  destruct wacz; cbn [Str.replaceAll_from Str.startsWith Ascii.eqb Bool.eqb andb
         String.length Str.GetSubstitution Str.drop];
    rewrite replaceAll_brace_free by exact Hpost; reflexivity.
Qed.

Lemma embed_page_template page_pre page_post archiveUrl originalUrl :
  Str.includes "{" page_pre = false ->
  Str.includes "{" page_post = false ->
  embed_page (page_pre +:+ "{{format}}" +:+ page_post)
    (VString archiveUrl) (VString originalUrl)
  = inr (page_pre
           +:+ (if Str.includes "wacz" archiveUrl then "wacz" else "warc.gz")
           +:+ page_post).
Proof.
  intros Hpre Hpost. unfold embed_page, Str.replaceAll. cbn [Js.ToString].
  destruct (replaceAll_brace_free_prefix "{original-url}}" originalUrl
              EmptyString page_pre ("{{format}}" +:+ page_post) Hpre)
    as (b1 & ->).
  rewrite other_placeholder_passes by auto.
  destruct (replaceAll_brace_free_prefix "{archive-url}}" archiveUrl
              EmptyString page_pre ("{{format}}" +:+ page_post) Hpre)
    as (b2 & ->).
  rewrite other_placeholder_passes by auto.
  cbn [embed_format].
  destruct (replaceAll_brace_free_prefix "{format}}"
              (if Str.includes "wacz" archiveUrl then "wacz" else "warc.gz")
              EmptyString page_pre ("{{format}}" +:+ page_post) Hpre)
    as (b3 & ->).
  rewrite format_placeholder_replaced by exact Hpost. reflexivity.
Qed.

(** The embed function on a valid request: the page it returns. *)
Lemma embed_succeeds
    (parseURL : string -> option URL) (request : Request) (context : Context)
    (archiveUrl originalUrl : string) :
  allowed_method request = true ->
  embed_validate parseURL request
    = inr (VString archiveUrl, VString originalUrl) ->
  200 <= status (next context) <= 599 ->
  null_body_status (status (next context)) = false ->
  exists response : Response string,
    embed parseURL request context = inr response
    /\ body response
       = Some (Str.replaceAll "{{format}}"
                 (format_label (Str.includes "wacz" archiveUrl))
                 (page_with_urls (default EmptyString (body (next context)))
                    archiveUrl originalUrl)).
Proof.
  intros Hallowed Hvalid Hstatus Hnull.
  unfold embed. rewrite Hallowed, Hvalid. cbn [negb].
  unfold embed_page, embed_format, new_text_Response, new_Response.
  cbn [init_status init_headers default from_option id Js.ToString].
  replace (status (next context) <? 200) with false by lia.
  replace (599 <? status (next context)) with false by lia.
  rewrite Hnull, andb_false_r. cbn [orb].
  eexists. split; reflexivity.
Qed.

(** A replacement text without dollar sign is inserted as it is. *)
Lemma GetSubstitution_dollar_free matched before after template :
  Str.includes "$" template = false ->
  Str.GetSubstitution matched before after template = template.
Proof.
  induction template as [|c t IH]; [reflexivity|].
  cbn [Str.includes Str.startsWith]. rewrite andb_true_r.
  intros H. apply orb_false_elim in H as [Hc Ht].
  specialize (IH Ht).
  destruct c as [[] [] [] [] [] [] [] []]; try discriminate;
    cbn [Str.GetSubstitution]; rewrite IH; reflexivity.
Qed.

Lemma original_url_replaced rep before rest :
  Str.includes "$" rep = false ->
  exists before',
    Str.replaceAll_from "{{original-url}}" rep 0 before
      ("{{original-url}}" +:+ rest)
    = rep +:+ Str.replaceAll_from "{{original-url}}" rep 0 before' rest.
Proof.
  intros Hrep. eexists. rewrite !append_cons, append_nil.
  cbn [Str.replaceAll_from Str.startsWith Ascii.eqb Bool.eqb andb String.length].
  rewrite GetSubstitution_dollar_free by exact Hrep. reflexivity.
Qed.

Lemma archive_url_replaced rep before rest :
  Str.includes "$" rep = false ->
  exists before',
    Str.replaceAll_from "{{archive-url}}" rep 0 before
      ("{{archive-url}}" +:+ rest)
    = rep +:+ Str.replaceAll_from "{{archive-url}}" rep 0 before' rest.
Proof.
  intros Hrep. eexists. rewrite !append_cons, append_nil.
  cbn [Str.replaceAll_from Str.startsWith Ascii.eqb Bool.eqb andb String.length].
  rewrite GetSubstitution_dollar_free by exact Hrep. reflexivity.
Qed.

Lemma format_replaced rep before rest :
  Str.includes "$" rep = false ->
  exists before',
    Str.replaceAll_from "{{format}}" rep 0 before ("{{format}}" +:+ rest)
    = rep +:+ Str.replaceAll_from "{{format}}" rep 0 before' rest.
Proof.
  intros Hrep. eexists. rewrite !append_cons, append_nil.
  cbn [Str.replaceAll_from Str.startsWith Ascii.eqb Bool.eqb andb String.length].
  rewrite GetSubstitution_dollar_free by exact Hrep. reflexivity.
Qed.

(** *** Substitution in a template *)

Lemma render_cons value p template :
  render value (p :: template) = value p +:+ render value template.
Proof. reflexivity. Qed.

(** When the replacement of a pattern that opens with a brace turns what
    [before] writes for each part into what [after] writes for it, and goes
    on behind the part, it turns the one template into the other. *)
Lemma replaceAll_render pat rep (before after : Part -> string) template :
  Forall (fun p =>
            forall passed rest, exists passed',
              Str.replaceAll_from (String "{" pat) rep 0 passed
                (before p +:+ rest)
              = after p +:+ Str.replaceAll_from (String "{" pat) rep 0 passed'
                              rest) template ->
  forall passed,
    Str.replaceAll_from (String "{" pat) rep 0 passed (render before template)
    = render after template.
Proof.
  induction 1 as [|p template Hp _ IH]; intros passed; [reflexivity|].
  rewrite !render_cons. destruct (Hp passed (render before template))
    as (passed' & ->).
  rewrite IH. reflexivity.
Qed.

(** A text whose opening braces come one at a time is passed over. *)
Lemma replaceAll_single_braces p rep passed s rest :
  single_braces s = true ->
  exists passed',
    Str.replaceAll_from (String "{" (String "{" p)) rep 0 passed (s +:+ rest)
    = s +:+ Str.replaceAll_from (String "{" (String "{" p)) rep 0 passed' rest.
Proof.
  revert passed. induction s as [|c s IH]; intros passed H.
  - exists passed. reflexivity.
  - cbn [single_braces] in H. apply andb_prop in H as [Hc Hs].
    rewrite append_cons, replaceAll_pass.
    + destruct (IH (passed +:+ String c EmptyString) Hs) as (passed' & ->).
      exists passed'. reflexivity.
    + cbn [Str.startsWith]. destruct (Ascii.eqb "{" c); [|reflexivity].
      destruct s as [|c' s]; [discriminate|].
      rewrite append_cons. cbn [Str.startsWith andb].
      destruct (Ascii.eqb "{" c'); [discriminate | reflexivity].
Qed.

Ltac placeholder_passes :=
  intros; eexists; rewrite !append_cons, append_nil;
  rewrite !replaceAll_pass by reflexivity; reflexivity.

Section Template.

Variables archiveUrl originalUrl label : string.
Hypothesis label_plain : plain label.

(** The template after the first, and after the second substitution. *)
Local Abbreviation first_pass :=
  (fun p => match p with
            | OriginalUrl => originalUrl
            | _ => placeholder p
            end).

Local Abbreviation second_pass :=
  (fun p => match p with
            | Format => placeholder p
            | _ => filled_part archiveUrl originalUrl label p
            end).

Lemma original_url_pass template :
  Forall (part_fits archiveUrl originalUrl) template ->
  Str.replaceAll "{{original-url}}" originalUrl (template_text template)
  = render first_pass template.
Proof.
  intros Hfit. apply replaceAll_render.
  apply (Forall_impl _ _ _ Hfit). intros [s| | |] Hp; cbn [placeholder].
  - intros passed rest. apply replaceAll_single_braces. exact Hp.
  - intros passed rest. apply original_url_replaced. apply Hp.
  - placeholder_passes.
  - placeholder_passes.
Qed.

Lemma archive_url_pass template :
  Forall (part_fits archiveUrl originalUrl) template ->
  Str.replaceAll "{{archive-url}}" archiveUrl (render first_pass template)
  = render second_pass template.
Proof.
  intros Hfit. apply replaceAll_render.
  apply (Forall_impl _ _ _ Hfit).
  intros [s| | |] Hp; cbn [placeholder filled_part].
  - intros passed rest. apply replaceAll_single_braces. exact Hp.
  - intros passed rest. apply replaceAll_brace_free_prefix. apply Hp.
  - intros passed rest. apply archive_url_replaced. apply Hp.
  - placeholder_passes.
Qed.

Lemma format_pass template :
  Forall (part_fits archiveUrl originalUrl) template ->
  Str.replaceAll "{{format}}" label (render second_pass template)
  = filled archiveUrl originalUrl label template.
Proof.
  intros Hfit. apply replaceAll_render.
  apply (Forall_impl _ _ _ Hfit).
  intros [s| | |] Hp; cbn [placeholder filled_part].
  - intros passed rest. apply replaceAll_single_braces. exact Hp.
  - intros passed rest. apply replaceAll_brace_free_prefix. apply Hp.
  - intros passed rest. apply replaceAll_brace_free_prefix. apply Hp.
  - intros passed rest. apply format_replaced. apply label_plain.
Qed.

(** The three substitutions fill a template. *)
Lemma template_filled template :
  Forall (part_fits archiveUrl originalUrl) template ->
  Str.replaceAll "{{format}}" label
    (page_with_urls (template_text template) archiveUrl originalUrl)
  = filled archiveUrl originalUrl label template.
Proof.
  intros Hfit. unfold page_with_urls.
  rewrite original_url_pass, archive_url_pass, format_pass by exact Hfit.
  reflexivity.
Qed.

End Template.

Lemma format_label_plain wacz : plain (format_label wacz).
Proof. destruct wacz; split; reflexivity. Qed.

(** *** Every format placeholder is replaced *)

Lemma startsWith_within p u t :
  (String.length p <= String.length u)%nat ->
  Str.startsWith p (u +:+ t) = Str.startsWith p u.
Proof.
  revert u. induction p as [|a p IH]; intros u H; [reflexivity|].
  destruct u as [|c u]; [cbn in H; lia|].
  rewrite append_cons. cbn [Str.startsWith]. rewrite IH; [reflexivity|].
  cbn in H. lia.
Qed.

Lemma startsWith_length p s :
  Str.startsWith p s = true -> (String.length p <= String.length s)%nat.
Proof.
  revert s. induction p as [|a p IH]; intros s H; [cbn; lia|].
  destruct s as [|c s]; [discriminate|].
  cbn [Str.startsWith] in H. apply andb_prop in H as [_ H].
  apply IH in H. cbn. lia.
Qed.

Ltac settle_code_units :=
  repeat match goal with
         | |- context [Ascii.eqb ?a ?c] =>
             is_var c; destruct (Ascii.eqb a c); cbn [andb]
         end.

(** The format placeholder does not overlap itself: it cannot start in the
    last nine code units before an occurrence of itself. *)
Lemma format_placeholder_unbordered u t :
  u <> EmptyString -> (String.length u < 10)%nat ->
  Str.startsWith "{{format}}" (u +:+ "{{format}}" +:+ t) = false.
Proof.
  intros Hne Hlen.
  destruct u as [|c1 [|c2 [|c3 [|c4 [|c5 [|c6 [|c7 [|c8 [|c9 [|c10 u]]]]]]]]]];
    [congruence | .. | cbn in Hlen; lia];
    rewrite !append_cons, append_nil; cbn [Str.startsWith];
    settle_code_units; reflexivity.
Qed.

Lemma label_substitution (wacz : bool) matched before after :
  Str.GetSubstitution matched before after (format_label wacz)
  = format_label wacz.
Proof. destruct wacz; reflexivity. Qed.

Section FormatPlaceholder.

Variable wacz : bool.

Local Abbreviation label := (format_label wacz).

Local Abbreviation R := (Str.replaceAll_from "{{format}}" (format_label wacz)).

Lemma format_step_match before c s :
  Str.startsWith "{{format}}" (String c s) = true ->
  R 0%nat before (String c s)
  = label +:+ R 9%nat (before +:+ String c EmptyString) s.
Proof.
  intros H. cbn [Str.replaceAll_from]. rewrite H.
  rewrite label_substitution. reflexivity.
Qed.

Lemma format_step_pass before c s :
  Str.startsWith "{{format}}" (String c s) = false ->
  R 0%nat before (String c s)
  = String c (R 0%nat (before +:+ String c EmptyString) s).
Proof. intros H. cbn [Str.replaceAll_from]. rewrite H. reflexivity. Qed.

Lemma format_step_skip k before c s :
  R (S k) before (String c s) = R k (before +:+ String c EmptyString) s.
Proof. reflexivity. Qed.

(** The text passed over plays no part: the labels hold no dollar sign. *)
Lemma format_before_irrelevant s :
  forall skip b b', R skip b s = R skip b' s.
Proof.
  induction s as [|c s IH]; intros skip b b'.
  - destruct skip; reflexivity.
  - destruct skip as [|k]; [|rewrite !format_step_skip; apply IH].
    destruct (Str.startsWith "{{format}}" (String c s)) eqn:Hm.
    + rewrite !format_step_match by exact Hm. f_equal. apply IH.
    + rewrite !format_step_pass by exact Hm. f_equal. apply IH.
Qed.

Lemma label_append_assoc s t : (label +:+ s) +:+ t = label +:+ s +:+ t.
Proof. destruct wacz; reflexivity. Qed.

Lemma format_split u v :
  forall skip b, (skip <= String.length u)%nat ->
  R skip b (u +:+ "{{format}}" +:+ v)
  = R skip b u +:+ R 0%nat b ("{{format}}" +:+ v).
Proof.
  induction u as [|c u IH]; intros skip b Hskip.
  - cbn in Hskip. replace skip with 0%nat by lia. reflexivity.
  - rewrite append_cons. destruct skip as [|k].
    + destruct (Str.startsWith "{{format}}" (String c (u +:+ "{{format}}" +:+ v)))
        eqn:Hm.
      * assert (Hlong : (10 <= String.length (String c u))%nat).
        { destruct (le_lt_dec 10 (String.length (String c u))) as [H | H];
            [exact H|].
          rewrite <- append_cons in Hm.
          rewrite format_placeholder_unbordered in Hm by (congruence || exact H).
          discriminate. }
        assert (Hu : Str.startsWith "{{format}}" (String c u) = true).
        { rewrite <- append_cons, startsWith_within in Hm by exact Hlong.
          exact Hm. }
        rewrite !format_step_match by assumption.
        rewrite IH by (cbn in Hlong; lia).
        rewrite label_append_assoc. do 2 f_equal. apply format_before_irrelevant.
      * assert (Hu : Str.startsWith "{{format}}" (String c u) = false).
        { destruct (Str.startsWith "{{format}}" (String c u)) eqn:Hu;
            [|reflexivity].
          rewrite <- append_cons, startsWith_within in Hm
            by apply (startsWith_length _ _ Hu).
          congruence. }
        rewrite !format_step_pass by assumption.
        rewrite IH by lia. rewrite (append_cons c (R 0%nat _ u)).
        do 2 f_equal. apply format_before_irrelevant.
    + rewrite !format_step_skip. rewrite IH by (cbn in Hskip; lia).
      f_equal. apply format_before_irrelevant.
Qed.

(** An occurrence of the placeholder in a text is replaced by the label,
    and so are those before it and those after it. *)
Lemma format_occurrence_replaced u v :
  Str.replaceAll "{{format}}" label (u +:+ "{{format}}" +:+ v)
  = Str.replaceAll "{{format}}" label u +:+ label
      +:+ Str.replaceAll "{{format}}" label v.
Proof.
  unfold Str.replaceAll. rewrite format_split by lia. f_equal.
  rewrite !append_cons, append_nil.
  rewrite format_step_match by reflexivity. f_equal.
  rewrite !format_step_skip. apply format_before_irrelevant.
Qed.

End FormatPlaceholder.

(** * Facts about the functions *)

(** *** Slicing *)

Lemma slice_inclusive (data : ArrayBuffer) (A B : N) :
  (A <= B)%N -> (B < N.of_nat (length data))%N ->
  slice_range [VNumber (Int (Z.of_N A)); VNumber (Int (Z.of_N B))] data
  = inclusive_slice data A B
  /\ length (inclusive_slice data A B) = N.to_nat (B - A + 1).
Proof.
  intros HAB HB. unfold slice_range, ArrayBuffer_slice, inclusive_slice.
  cbn [Js.get lookup list_lookup default from_option id Js.add Js.ToNumber
       ToInteger].
  unfold clamp_index.
  replace (Z.of_N A <? 0) with false by lia.
  replace (Z.of_N B + 1 <? 0) with false by lia.
  split.
  - f_equal; [lia | f_equal; lia].
  - rewrite length_take, length_drop. lia.
Qed.

Lemma string_of_Z_of_N n : Js.string_of_Z (Z.of_N n) = Js.string_of_N n.
Proof.
  unfold Js.string_of_Z. destruct (Z.ltb_spec (Z.of_N n) 0) as [H | _]; [lia|].
  rewrite N2Z.id. reflexivity.
Qed.

(** A header copied or not, the other headers stay. *)
Lemma copy_etag_other response (h : HeaderObject) name :
  name <> "etag" -> copy_etag response h !! name = h !! name.
Proof.
  intros Hn. unfold copy_etag.
  destruct (Js.ToBoolean (Headers_get (origin_headers response) "etag"));
    [|reflexivity].
  apply lookup_insert_ne. congruence.
Qed.

(** The responses built with [headers: returnHeaders] do allow any origin. *)
Lemma success_headers_allow_origin response ext contentLength contentRange :
  (Js.ToString <$>
     copy_etag response
       (<["content-length" := contentLength]>
          (<["content-range" := contentRange]> (archive_headers ext))))
    !! "access-control-allow-origin" = Some "*".
Proof.
  rewrite lookup_fmap, copy_etag_other by discriminate.
  rewrite !lookup_insert_ne by discriminate.
  unfold archive_headers. destruct (String.eqb ext ".wacz"); reflexivity.
Qed.

Section ArchiveFacts.

Variable parseURL : string -> option URL.
Variable allowlist : list string.

Lemma bare_error_response s (h : HeaderObject) :
  200 <= s <= 599 ->
  new_Response (B := ArrayBuffer) None (init_shorthand s h) = inr (bare_response s).
Proof.
  intros Hs. unfold new_Response, init_shorthand, bare_response. cbn.
  replace (s <? 200) with false by lia. replace (599 <? s) with false by lia.
  cbn. rewrite fmap_empty. reflexivity.
Qed.

(** Past the probe, [archive] continues on one of the two paths. *)
Lemma archive_dispatch net request archiveUrl ext response :
  allowed_method request = true ->
  archive_validate parseURL allowlist request = inr (archiveUrl, ext) ->
  net 0%nat (probe_call archiveUrl) = Fetched response ->
  run (archive parseURL allowlist request) net
  = (if supportsRange response
     then archive_passthrough request archiveUrl (archive_headers ext)
     else archive_polyfill request archiveUrl (archive_headers ext)
            (probedByteLength response))
      net [probe_call archiveUrl].
Proof.
  intros Hm Hv Hp. unfold run, archive. rewrite Hm, Hv. cbn [negb].
  unfold bind, attempt, fetch. cbn [length].
  fold (probe_call archiveUrl). rewrite Hp.
  fold (archive_headers ext). reflexivity.
Qed.

(** A probe that fails ends the run: one call, and the 404 of the [catch]. *)
Lemma archive_probe_failure net request archiveUrl ext :
  allowed_method request = true ->
  archive_validate parseURL allowlist request = inr (archiveUrl, ext) ->
  net 0%nat (probe_call archiveUrl) = NetworkError ->
  run (archive parseURL allowlist request) net
  = (inr (bare_response 404), [probe_call archiveUrl]).
Proof.
  intros Hm Hv Hp. unfold run, archive. rewrite Hm, Hv. cbn [negb].
  unfold bind, attempt, fetch. cbn [length].
  fold (probe_call archiveUrl). rewrite Hp.
  unfold lift. rewrite bare_error_response by lia. reflexivity.
Qed.

(** The polyfill when the body is read (any method but [HEAD]). *)
Lemma archive_polyfill_body net log request archiveUrl hdrs len transfer :
  String.eqb (method request) "HEAD" = false ->
  net (length log)
    (polyfill_call archiveUrl
       (if Js.ToBoolean len then method request else "GET"))
  = Fetched transfer ->
  let total := measuredByteLength len (Some (origin_body transfer)) in
  let range :=
    parseRangeHeader (Headers_get (headers request) "range") total in
  let data := slice_range range (origin_body transfer) in
  archive_polyfill request archiveUrl hdrs len net log
  = (inr {| status := 206;
            response_headers :=
              Js.ToString <$>
                copy_etag transfer
                  (<["content-length" := VString (Js.ToString (byteLength data))]>
                     (<["content-range" :=
                          VString (content_range_text range total)]> hdrs));
            body := Some data |},
     log ++ [polyfill_call archiveUrl
               (if Js.ToBoolean len then method request else "GET")]).
Proof.
  intros Hm Hnet total range data. unfold archive_polyfill, bind, fetch.
  fold (polyfill_call archiveUrl
          (if Js.ToBoolean len then method request else "GET")).
  rewrite Hnet. unfold read_body. rewrite Hm. reflexivity.
Qed.

(** The polyfill on a [HEAD] request: nothing is read. *)
Lemma archive_polyfill_head net log request archiveUrl hdrs len transfer :
  method request = "HEAD" ->
  net (length log)
    (polyfill_call archiveUrl (if Js.ToBoolean len then "HEAD" else "GET"))
  = Fetched transfer ->
  let range := parseRangeHeader (Headers_get (headers request) "range") len in
  archive_polyfill request archiveUrl hdrs len net log
  = (inr {| status := 206;
            response_headers :=
              Js.ToString <$>
                copy_etag transfer
                  (<["content-length" := VString "0"]>
                     (<["content-range" :=
                          VString (content_range_text range len)]> hdrs));
            body := None |},
     log ++ [polyfill_call archiveUrl
               (if Js.ToBoolean len then "HEAD" else "GET")]).
Proof.
  intros Hm Hnet range. unfold archive_polyfill, bind, fetch.
  rewrite Hm.
  fold (polyfill_call archiveUrl (if Js.ToBoolean len then "HEAD" else "GET")).
  rewrite Hnet. unfold read_body. rewrite Hm. cbn [String.eqb Ascii.eqb].
  unfold measuredByteLength. destruct len; reflexivity.
Qed.

(** The transfer is not guarded: when it fails, on either path, the
    exception leaves the function after that one attempt. *)
Lemma archive_transfer_failure net request archiveUrl ext probe :
  allowed_method request = true ->
  archive_validate parseURL allowlist request = inr (archiveUrl, ext) ->
  net 0%nat (probe_call archiveUrl) = Fetched probe ->
  (forall call, net 1%nat call = NetworkError) ->
  exists call,
    run (archive parseURL allowlist request) net
    = (inl TypeError, [probe_call archiveUrl; call]).
Proof.
  intros Hm Hv Hp Hdown.
  rewrite (archive_dispatch net request archiveUrl ext probe Hm Hv Hp).
  destruct (supportsRange probe).
  - exists (passthrough_call archiveUrl request).
    unfold archive_passthrough, bind, fetch. cbn [length].
    rewrite Hdown. reflexivity.
  - exists (polyfill_call archiveUrl
              (if Js.ToBoolean (probedByteLength probe)
               then method request else "GET")).
    unfold archive_polyfill, bind, fetch. cbn [length].
    rewrite Hdown. reflexivity.
Qed.

(** [archive.js] on a [HEAD] request that takes the polyfill: no body, a
    length of 0 and the range computed from the header. *)
Lemma archive_head_polyfill net request archiveUrl ext probe transfer :
  method request = "HEAD" ->
  archive_validate parseURL allowlist request = inr (archiveUrl, ext) ->
  net 0%nat (probe_call archiveUrl) = Fetched probe ->
  supportsRange probe = false ->
  net 1%nat
    (polyfill_call archiveUrl
       (if Js.ToBoolean (probedByteLength probe) then "HEAD" else "GET"))
  = Fetched transfer ->
  exists response : Response ArrayBuffer,
    fst (run (archive parseURL allowlist request) net) = inr response
    /\ status response = 206
    /\ body response = None
    /\ response_headers response !! "content-length" = Some "0"
    /\ response_headers response !! "content-range"
       = Some (content_range_text
                 (parseRangeHeader (Headers_get (headers request) "range")
                    (probedByteLength probe))
                 (probedByteLength probe)).
Proof.
  intros Hhead Hv Hp Hno Ht.
  assert (Hm : allowed_method request = true)
    by (unfold allowed_method; rewrite Hhead; reflexivity).
  rewrite (archive_dispatch net request archiveUrl ext probe Hm Hv Hp), Hno.
  rewrite (archive_polyfill_head net [probe_call archiveUrl] request
             archiveUrl (archive_headers ext) (probedByteLength probe)
             transfer Hhead Ht).
  eexists. split; [reflexivity|]. cbn [status body response_headers].
  repeat split.
  - rewrite lookup_fmap, copy_etag_other by discriminate.
    rewrite lookup_insert_eq. reflexivity.
  - rewrite lookup_fmap, copy_etag_other by discriminate.
    rewrite lookup_insert_ne by discriminate. rewrite lookup_insert_eq.
    reflexivity.
Qed.

(** [archive-wacz.js] on the same requests: the length of the missing body
    is read, and the function throws. *)
Lemma archive_wacz_head_polyfill net request archiveUrl probe transfer :
  method request = "HEAD" ->
  archive_wacz_validate parseURL allowlist request = inr archiveUrl ->
  net 0%nat (probe_call archiveUrl) = Fetched probe ->
  supportsRange probe = false ->
  net 1%nat
    (polyfill_call archiveUrl
       (if Js.ToBoolean (probedByteLength probe) then "HEAD" else "GET"))
  = Fetched transfer ->
  fst (run (archive_wacz parseURL allowlist request) net) = inl TypeError.
Proof.
  intros Hhead Hv Hp Hno Ht. unfold run, archive_wacz.
  assert (Hm : allowed_method request = true)
    by (unfold allowed_method; rewrite Hhead; reflexivity).
  rewrite Hm, Hv. cbn [negb]. unfold bind at 1. unfold attempt, fetch at 1.
  cbn [length]. fold (probe_call archiveUrl). rewrite Hp, Hno.
  unfold archive_wacz_polyfill, bind, fetch. rewrite Hhead.
  fold (polyfill_call archiveUrl
          (if Js.ToBoolean (probedByteLength probe) then "HEAD" else "GET")).
  cbn [length app]. rewrite Ht. unfold read_body. rewrite Hhead. reflexivity.
Qed.

End ArchiveFacts.

(** * The claims of the specification *)

(** The length that the polyfill works with, under [announces]. *)
Lemma polyfill_length probe transfer total :
  supportsRange probe = false ->
  announces probe total ->
  N.of_nat (length (origin_body transfer)) = total ->
  let len := measuredByteLength (probedByteLength probe)
               (Some (origin_body transfer)) in
  Js.ToNumber len = Int (Z.of_N total)
  /\ Js.ToString len = Js.string_of_N total.
Proof.
  intros _ Ha Hlen. unfold announces in Ha.
  unfold probedByteLength, Headers_get.
  assert (Hmeasured :
    Js.ToNumber (byteLength (origin_body transfer)) = Int (Z.of_N total)
    /\ Js.ToString (byteLength (origin_body transfer)) = Js.string_of_N total).
  { unfold byteLength. cbn [Js.ToNumber Js.ToString Js.Number_toString].
    rewrite <- Hlen, nat_N_Z. split; [reflexivity|].
    rewrite <- (nat_N_Z (length _)). apply string_of_Z_of_N. }
  destruct (origin_headers probe !! "content-length") as [c|]; [|exact Hmeasured].
  destruct Ha as [-> | ->]; [exact Hmeasured|].
  cbn [Js.ToBoolean].
  destruct (String.eqb_spec (Js.string_of_N total) EmptyString) as [He | _];
    [destruct (string_of_N_nonempty _ He)|].
  cbn [negb measuredByteLength Js.ToNumber Js.ToString].
  split; [apply StringToNumber_string_of_N | reflexivity].
Qed.

(** C1.  On the polyfill path of [archive.js], a [GET] request whose Range
    header is [bytes=A-B] with [A <= B < total], where [total] is the length
    of the body fetched (and the length the probe announced, if it announced
    one), is answered with status 206, the bytes [A] to [B] of the body,
    [B - A + 1] of them, and [content-range: bytes A-B/total]. *)
Theorem polyfill_serves_closed_range
    (parseURL : string -> option URL) (allowlist : list string) (net : Network)
    (request : Request) (archiveUrl : Value) (ext : string)
    (probe transfer : OriginResponse) (A B total : N) :
  method request = "GET" ->
  archive_validate parseURL allowlist request = inr (archiveUrl, ext) ->
  net 0%nat (probe_call archiveUrl) = Fetched probe ->
  supportsRange probe = false ->
  announces probe total ->
  net 1%nat (polyfill_call archiveUrl "GET") = Fetched transfer ->
  N.of_nat (length (origin_body transfer)) = total ->
  headers request !! "range"
    = Some ("bytes=" +:+ Js.string_of_N A +:+ "-" +:+ Js.string_of_N B) ->
  (A <= B)%N -> (B < total)%N ->
  exists response : Response ArrayBuffer,
    run (archive parseURL allowlist request) net
      = (inr response, [probe_call archiveUrl; polyfill_call archiveUrl "GET"])
    /\ status response = 206
    /\ body response = Some (inclusive_slice (origin_body transfer) A B)
    /\ length (inclusive_slice (origin_body transfer) A B)
       = N.to_nat (B - A + 1)
    /\ response_headers response !! "content-range"
       = Some ("bytes " +:+ Js.string_of_N A +:+ "-" +:+ Js.string_of_N B
                 +:+ "/" +:+ Js.string_of_N total).
Proof.
  intros Hget Hvalid Hprobe Hnorange Hann Htransfer Hlen Hrange HAB HB.
  assert (Hallowed : allowed_method request = true)
    by (unfold allowed_method; rewrite Hget; reflexivity).
  assert (Hmethod :
    (if Js.ToBoolean (probedByteLength probe) then method request else "GET")
    = "GET") by (rewrite Hget; destruct (Js.ToBoolean _); reflexivity).
  rewrite (archive_dispatch parseURL allowlist net request archiveUrl ext probe
             Hallowed Hvalid Hprobe), Hnorange.
  rewrite (archive_polyfill_body net [probe_call archiveUrl] request archiveUrl
             (archive_headers ext) (probedByteLength probe) transfer);
    [| rewrite Hget; reflexivity | rewrite Hmethod; exact Htransfer].
  rewrite Hmethod.
  destruct (polyfill_length probe transfer total Hnorange Hann Hlen)
    as [Hnum Hstr].
  replace (Headers_get (headers request) "range")
    with (VString ("bytes=" +:+ Js.string_of_N A +:+ "-" +:+ Js.string_of_N B))
    by (unfold Headers_get; rewrite Hrange; reflexivity).
  rewrite (parseRangeHeader_closed A B _ _ Hnum).
  replace (Z.of_N total <=? Z.of_N B) with false by lia.
  destruct (slice_inclusive (origin_body transfer) A B HAB) as [Hslice Hsize];
    [rewrite Hlen; exact HB|].
  rewrite Hslice. eexists. split; [reflexivity|].
  cbn [status body response_headers]. repeat split; [exact Hsize|].
  rewrite lookup_fmap, copy_etag_other by discriminate.
  rewrite lookup_insert_ne by discriminate. rewrite lookup_insert_eq.
  unfold content_range_text.
  cbn [Js.get lookup list_lookup default from_option id Js.ToString
       Js.Number_toString fmap option_fmap option_map].
  rewrite !string_of_Z_of_N, Hstr. reflexivity.
Qed.

(** C1 at an origin that announces ten bytes: the request for [bytes=2-5]. *)
Lemma polyfill_serves_closed_range_witness :
  exists response : Response ArrayBuffer,
    run (archive Sample.parseURL Sample.allowlist
           (Sample.request "GET" Sample.wacz_url {["range" := "bytes=2-5"]}))
        Sample.sized_origin
      = (inr response,
         [probe_call (VString Sample.wacz_url);
          polyfill_call (VString Sample.wacz_url) "GET"])
    /\ status response = 206
    /\ body response = Some (inclusive_slice Sample.object 2 5)
    /\ length (inclusive_slice Sample.object 2 5) = N.to_nat (5 - 2 + 1)
    /\ response_headers response !! "content-range"
       = Some ("bytes " +:+ Js.string_of_N 2 +:+ "-" +:+ Js.string_of_N 5
                 +:+ "/" +:+ Js.string_of_N 10).
Proof.
  apply (polyfill_serves_closed_range Sample.parseURL Sample.allowlist
           Sample.sized_origin
           (Sample.request "GET" Sample.wacz_url {["range" := "bytes=2-5"]})
           (VString Sample.wacz_url) ".wacz"
           Sample.sized_probe Sample.sized_transfer 2%N 5%N 10%N);
    try reflexivity; try (vm_compute; reflexivity).
  - vm_compute. right. reflexivity.
  - lia.
Defined.

(** C2 on headers that do not parse: the end takes its default but the
    start is left as [NaN], and the response of [archive.js] announces the
    range [bytes NaN-9/10]. *)
Theorem unparseable_header_starts_at_NaN :
  parseRangeHeader (VString "garbage") (VNumber (Int 1000))
    = [VNumber NaN; VNumber (Int 999)]
  /\ parseRangeHeader (VString "bytes=abc-def") (VString "1000")
     = [VNumber NaN; VNumber (Int 999)]
  /\ exists response : Response ArrayBuffer,
       run (archive Sample.parseURL Sample.allowlist
              (Sample.request "GET" Sample.wacz_url {["range" := "garbage"]}))
           Sample.sized_origin
         = (inr response,
            [probe_call (VString Sample.wacz_url);
             polyfill_call (VString Sample.wacz_url) "GET"])
       /\ body response = Some Sample.object
       /\ response_headers response !! "content-range"
          = Some "bytes NaN-9/10".
Proof.
  split; [reflexivity|]. split; [reflexivity|]. eexists.
  split; [vm_compute; reflexivity | split; reflexivity].
Qed.

(** C3 fails on [bytes=500-100]: the end is before the start. *)
Lemma inverted_range_counterexample :
  ~ ByteRange_invariant
      (parseRangeHeader (VString "bytes=500-100") (VNumber (Int 1000))) 1000.
Proof.
  intros (first & last & Hfirst & Hlast & Horder & _).
  vm_compute in Hfirst, Hlast.
  injection Hfirst as <-. injection Hlast as <-. lia.
Qed.

(** C3, as the code has it.  For a length that binary64 holds exactly (up
    to [Number.MAX_SAFE_INTEGER]) and whatever the header, the end of the
    range is a number below the length.  The start is at most the end when
    the header is absent, and when the header is [bytes=A-B] with [A <= B]
    and [A] below the length. *)
Theorem range_end_below_length (range len : Value) (n : Z) :
  Js.ToNumber len = Int n ->
  0 < n <= Js.MAX_SAFE_INTEGER ->
  exists last : Z,
    Js.get (parseRangeHeader range len) 1 = VNumber (Int last)
    /\ last < n
    /\ ((forall r, range <> VString r) ->
        ByteRange_invariant (parseRangeHeader range len) n)
    /\ (forall A B : N,
          range = VString ("bytes=" +:+ Js.string_of_N A +:+ "-"
                             +:+ Js.string_of_N B) ->
          (A <= B)%N -> Z.of_N A < n ->
          ByteRange_invariant (parseRangeHeader range len) n).
Proof.
  intros Hn [Hpos _].
  destruct (parseRangeHeader_end range len n Hn) as (last & Hlast & Hbound).
  exists last. repeat split; try assumption.
  - intros Habsent. rewrite (parseRangeHeader_absent range len n Habsent Hn).
    exists 0, (n - 1). repeat split; lia.
  - intros A B -> HAB HA. rewrite (parseRangeHeader_closed A B len n Hn).
    eexists _, _. split; [reflexivity|]. split; [reflexivity|].
    destruct (Z.leb_spec n (Z.of_N B)); lia.
Qed.

(** The three parts of C3 on a length of 1000: the end of [bytes=100-5000]
    is below the length, and the range is in order for [bytes=100-500] and
    for an absent header. *)
Lemma range_end_below_length_witness :
  (exists last : Z,
     Js.get (parseRangeHeader (VString "bytes=100-5000") (VString "1000")) 1
       = VNumber (Int last)
     /\ last < 1000)
  /\ ByteRange_invariant
       (parseRangeHeader (VString "bytes=100-500") (VString "1000")) 1000
  /\ ByteRange_invariant (parseRangeHeader VNull (VString "1000")) 1000.
Proof.
  split; [|split].
  - destruct (range_end_below_length (VString "bytes=100-5000")
                (VString "1000") 1000)
      as (last & Hlast & Hbound & _);
      [reflexivity | unfold Js.MAX_SAFE_INTEGER; lia |].
    exists last. split; [exact Hlast | exact Hbound].
  - destruct (range_end_below_length (VString "bytes=100-500")
                (VString "1000") 1000)
      as (_ & _ & _ & _ & Hclosed);
      [reflexivity | unfold Js.MAX_SAFE_INTEGER; lia |].
    apply (Hclosed 100%N 500%N); [reflexivity | lia | lia].
  - destruct (range_end_below_length VNull (VString "1000") 1000)
      as (_ & _ & _ & Habsent & _);
      [reflexivity | unfold Js.MAX_SAFE_INTEGER; lia |].
    apply Habsent. intros r. discriminate.
Defined.



Lemma ToBoolean_header (h : Headers) name :
  Js.ToBoolean (Headers_get h name) = true <-> declares h name.
Proof.
  unfold Headers_get, declares. destruct (h !! name) as [v|]; cbn [Js.ToBoolean].
  - destruct (String.eqb_spec v EmptyString) as [-> | Hv]; cbn [negb]; split.
    + discriminate.
    + intros (v & [= <-] & Hv). congruence.
    + intros _. exists v. split; [reflexivity | exact Hv].
    + reflexivity.
  - split; [discriminate | intros (v & [=] & _)].
Qed.

(** C7.  The probe response supports ranges exactly when it declares both
    [accept-ranges] and [content-length], each with a non-empty value; the
    run then goes on with the pass-through, and with the polyfill as soon as
    one of the two is missing. *)
Theorem probe_selects_path
    (parseURL : string -> option URL) (allowlist : list string) (net : Network)
    (request : Request) (archiveUrl : Value) (ext : string)
    (response : OriginResponse) :
  allowed_method request = true ->
  archive_validate parseURL allowlist request = inr (archiveUrl, ext) ->
  net 0%nat (probe_call archiveUrl) = Fetched response ->
  (supportsRange response = true
   <-> declares (origin_headers response) "accept-ranges"
       /\ declares (origin_headers response) "content-length")
  /\ run (archive parseURL allowlist request) net
     = (if supportsRange response
        then archive_passthrough request archiveUrl (archive_headers ext)
        else archive_polyfill request archiveUrl (archive_headers ext)
               (probedByteLength response))
         net [probe_call archiveUrl].
Proof.
  intros Hallowed Hvalid Hprobe. split.
  - unfold supportsRange. rewrite andb_true_iff, !ToBoolean_header. reflexivity.
  - apply archive_dispatch; assumption.
Qed.

Lemma probe_selects_path_witness :
  (supportsRange Sample.sized_probe = true
   <-> declares (origin_headers Sample.sized_probe) "accept-ranges"
       /\ declares (origin_headers Sample.sized_probe) "content-length")
  /\ run (archive Sample.parseURL Sample.allowlist
            (Sample.request "GET" Sample.wacz_url ∅))
         Sample.sized_origin
     = (if supportsRange Sample.sized_probe
        then archive_passthrough (Sample.request "GET" Sample.wacz_url ∅)
               (VString Sample.wacz_url) (archive_headers ".wacz")
        else archive_polyfill (Sample.request "GET" Sample.wacz_url ∅)
               (VString Sample.wacz_url) (archive_headers ".wacz")
               (probedByteLength Sample.sized_probe))
         Sample.sized_origin [probe_call (VString Sample.wacz_url)].
Proof.
  apply (probe_selects_path Sample.parseURL Sample.allowlist Sample.sized_origin
           (Sample.request "GET" Sample.wacz_url ∅)
           (VString Sample.wacz_url) ".wacz" Sample.sized_probe);
    reflexivity.
Defined.

(** C4 on an origin that answers every request with a 404 page: the probe
    is taken as a success, the page is fetched and served with status 206. *)
Theorem probe_status_is_not_read :
  Sample.missing_origin 0%nat (probe_call (VString Sample.wacz_url))
    = Fetched {| origin_status := 404; origin_headers := ∅; origin_body := [] |}
  /\ exists response : Response ArrayBuffer,
       run (archive Sample.parseURL Sample.allowlist
              (Sample.request "GET" Sample.wacz_url ∅))
           Sample.missing_origin
         = (inr response,
            [probe_call (VString Sample.wacz_url);
             polyfill_call (VString Sample.wacz_url) "GET"])
       /\ status response = 206
       /\ body response = Some (Sample.bytes_of "Not Found").
Proof.
  split; [reflexivity|]. eexists.
  split; [vm_compute; reflexivity | split; reflexivity].
Qed.

(** C5 on an origin that answers the probe and is then out of reach: on both
    paths of [archive.js] the exception of the transfer is left uncaught and
    no response is returned, after one attempt; [archive-warc-gz.js] catches
    it and answers 404. *)
Theorem transfer_failure_is_not_caught :
  run (archive Sample.parseURL Sample.allowlist
         (Sample.request "GET" Sample.wacz_url ∅))
      Sample.vanishing_origin
    = (inl TypeError,
       [probe_call (VString Sample.wacz_url);
        passthrough_call (VString Sample.wacz_url)
          (Sample.request "GET" Sample.wacz_url ∅)])
  /\ run (archive Sample.parseURL Sample.allowlist
            (Sample.request "GET" Sample.wacz_url ∅))
         Sample.vanishing_plain_origin
       = (inl TypeError,
          [probe_call (VString Sample.wacz_url);
           polyfill_call (VString Sample.wacz_url) "GET"])
  /\ run (archive_warc_gz Sample.parseURL Sample.allowlist
            (Sample.request "GET" Sample.warc_gz_url ∅))
         Sample.unreachable
       = (inr (bare_response 404),
          [polyfill_call (VString Sample.warc_gz_url) "GET"]).
Proof. repeat split. Qed.

(** C6 on a [POST] request, on a host outside the allow list and on an
    origin out of reach: the 405, 400 and 404 responses of [archive.js] carry
    no header at all; nor does the 200 response of [archive-warc-gz.js]. *)
Theorem error_responses_carry_no_header :
  run (archive Sample.parseURL Sample.allowlist
         (Sample.request "POST" Sample.wacz_url ∅))
      Sample.plain_origin
    = (inr (bare_response 405), [])
  /\ run (archive Sample.parseURL Sample.allowlist
            (Sample.request "GET" "https://blocked.example/a.wacz" ∅))
         Sample.plain_origin
       = (inr (bare_response 400), [])
  /\ run (archive Sample.parseURL Sample.allowlist
            (Sample.request "GET" Sample.wacz_url ∅))
         Sample.unreachable
       = (inr (bare_response 404), [probe_call (VString Sample.wacz_url)])
  /\ run (archive_warc_gz Sample.parseURL Sample.allowlist
            (Sample.request "GET" Sample.warc_gz_url ∅))
         Sample.plain_origin
       = (inr {| status := 200; response_headers := ∅;
                 body := Some Sample.object |},
          [polyfill_call (VString Sample.warc_gz_url) "GET"])
  /\ forall s, response_headers (bare_response s)
                 !! "access-control-allow-origin" = None.
Proof. repeat split. Qed.

(** C8 on a [HEAD] request whose origin lacks range support:
    [archive-wacz.js] reads the length of a body it did not fetch and throws,
    whether the origin announces a length or not. *)
Theorem wacz_polyfill_head_throws :
  run (archive_wacz Sample.parseURL Sample.allowlist
         (Sample.request "HEAD" Sample.wacz_url ∅))
      Sample.sized_origin
    = (inl TypeError,
       [probe_call (VString Sample.wacz_url);
        polyfill_call (VString Sample.wacz_url) "HEAD"])
  /\ run (archive_wacz Sample.parseURL Sample.allowlist
            (Sample.request "HEAD" Sample.wacz_url ∅))
         Sample.plain_origin
       = (inl TypeError,
          [probe_call (VString Sample.wacz_url);
           polyfill_call (VString Sample.wacz_url) "GET"]).
Proof. repeat split. Qed.

(** C10.  On a page made of text and placeholders, the embed function
    puts one label in the place of every format placeholder: [wacz] when
    [wacz] occurs anywhere in the text of [archive-url], and [warc.gz] when
    it does not occur.  In the text of the page opening braces come one at
    a time, and a URL for which the page has a placeholder has neither a
    dollar sign nor an opening brace. *)
Theorem format_follows_archive_url
    (parseURL : string -> option URL) (request : Request) (context : Context)
    (archiveUrl originalUrl : string) (template : list Part) :
  allowed_method request = true ->
  embed_validate parseURL request
    = inr (VString archiveUrl, VString originalUrl) ->
  200 <= status (next context) <= 599 ->
  null_body_status (status (next context)) = false ->
  body (next context) = Some (template_text template) ->
  Forall (part_fits archiveUrl originalUrl) template ->
  exists (response : Response string) (wacz : bool),
    embed parseURL request context = inr response
    /\ (wacz = true <-> exists u v, archiveUrl = u +:+ "wacz" +:+ v)
    /\ body response
       = Some (filled archiveUrl originalUrl
                 (if wacz then "wacz" else "warc.gz") template).
Proof.
  intros Hallowed Hvalid Hstatus Hnull Hpage Hfit.
  destruct (embed_succeeds parseURL request context archiveUrl originalUrl
              Hallowed Hvalid Hstatus Hnull) as (response & Hrun & Hbody).
  exists response, (Str.includes "wacz" archiveUrl).
  split; [exact Hrun|]. split; [apply includes_spec|].
  rewrite Hbody, Hpage. cbn [default from_option id].
  rewrite template_filled by (apply format_label_plain || exact Hfit).
  reflexivity.
Qed.

(** C10 on a page with the three placeholders: a [.warc.gz] archive under a
    directory named [wacz] is labelled [wacz], and the same archive outside
    that directory [warc.gz]. *)
Lemma format_follows_archive_url_witness :
  (exists response : Response string,
     embed Sample.parseURL Sample.embed_request
       {| next := Sample.template_page |} = inr response
     /\ body response
        = Some ("<style>body { margin: 0 }</style>"
                  +:+ "<replay-web-page"
                  +:+ " source=https://allowed.example/wacz/a.warc.gz"
                  +:+ " url=https://example.org/ format=wacz>"))
  /\ (exists response : Response string,
        embed Sample.parseURL Sample.warc_gz_embed_request
          {| next := Sample.template_page |} = inr response
        /\ body response
           = Some ("<style>body { margin: 0 }</style>"
                     +:+ "<replay-web-page"
                     +:+ " source=https://allowed.example/a.warc.gz"
                     +:+ " url=https://example.org/ format=warc.gz>")).
Proof.
  split.
  - destruct (format_follows_archive_url Sample.parseURL Sample.embed_request
                {| next := Sample.template_page |}
                "https://allowed.example/wacz/a.warc.gz" "https://example.org/"
                [Text "<style>body { margin: 0 }</style><replay-web-page source=";
                 ArchiveUrl; Text " url=";
                 OriginalUrl; Text " format="; Format; Text ">"])
      as (response & wacz & Hrun & Hwacz & Hbody);
      [reflexivity | reflexivity | cbn; lia | reflexivity | reflexivity
       | repeat constructor |].
    exists response. split; [exact Hrun|]. rewrite Hbody.
    replace wacz with true; [reflexivity|].
    symmetry. apply Hwacz.
    exists "https://allowed.example/", "/a.warc.gz". reflexivity.
  - destruct (format_follows_archive_url Sample.parseURL
                Sample.warc_gz_embed_request
                {| next := Sample.template_page |}
                "https://allowed.example/a.warc.gz" "https://example.org/"
                [Text "<style>body { margin: 0 }</style><replay-web-page source=";
                 ArchiveUrl; Text " url=";
                 OriginalUrl; Text " format="; Format; Text ">"])
      as (response & wacz & Hrun & Hwacz & Hbody);
      [reflexivity | reflexivity | cbn; lia | reflexivity | reflexivity
       | repeat constructor |].
    exists response. split; [exact Hrun|]. rewrite Hbody.
    replace wacz with false; [reflexivity|].
    destruct wacz; [|reflexivity].
    pose proof (proj2 (includes_spec _ _) (proj1 Hwacz eq_refl)) as Habsurd.
    discriminate.
Defined.

(** The case the claim singles out: an archive whose path ends in
    [.warc.gz] and has [wacz] elsewhere in its URL is labelled [wacz]. *)
Example warc_gz_under_wacz_directory :
  match embed Sample.parseURL Sample.embed_request {| next := Sample.page |} with
  | inr response => body response
  | inl _ => None
  end = Some "<replay-web-page format=wacz>".
Proof. reflexivity. Qed.

(** * Further properties of the functions *)

(** *** The end of a string *)

Lemma append_assoc (a b c : string) : (a +:+ b) +:+ c = a +:+ b +:+ c.
Proof.
  induction a as [|x a IH]; [reflexivity|].
  rewrite !append_cons, IH. reflexivity.
Qed.

Lemma rev_append_app s acc : Str.rev_append s acc = Str.rev s +:+ acc.
Proof.
  revert acc. unfold Str.rev. induction s as [|c s IH]; intros acc.
  - reflexivity.
  - cbn [Str.rev_append]. rewrite (IH (String c acc)), (IH (String c EmptyString)).
    rewrite append_assoc. reflexivity.
Qed.

Lemma rev_app a b : Str.rev (a +:+ b) = Str.rev b +:+ Str.rev a.
Proof.
  induction a as [|x a IH].
  - rewrite append_nil, append_empty_r. reflexivity.
  - rewrite append_cons. unfold Str.rev at 1 3. cbn [Str.rev_append].
    rewrite !rev_append_app, IH, append_assoc. reflexivity.
Qed.

Lemma endsWith_spec p s :
  Str.endsWith p s = true <-> exists u, s = u +:+ p.
Proof.
  unfold Str.endsWith. rewrite startsWith_spec. split.
  - intros (v & Hv). exists (Str.rev v).
    rewrite <- (rev_rev s), Hv, rev_app, rev_rev. reflexivity.
  - intros (u & ->). exists (Str.rev u). apply rev_app.
Qed.

(** No path ends in both suffixes. *)
Lemma suffixes_exclusive s :
  Str.endsWith ".wacz" s = true -> Str.endsWith ".warc.gz" s = false.
Proof.
  unfold Str.endsWith.
  change (Str.rev ".wacz") with "zcaw.".
  change (Str.rev ".warc.gz") with "zg.craw.".
  destruct (Str.rev s) as [|c1 [|c2 r]]; cbn [Str.startsWith]; try discriminate.
  - rewrite andb_false_r. discriminate.
  - intros H. apply andb_prop in H as [_ H]. apply andb_prop in H as [H _].
    apply Ascii.eqb_eq in H as <-. apply andb_false_r.
Qed.

Lemma includes_In (a : list string) x : Js.includes a x = true <-> In x a.
Proof.
  unfold Js.includes. rewrite existsb_exists. split.
  - intros (y & Hy & Heq). apply String.eqb_eq in Heq as ->. exact Hy.
  - intros H. exists x. split; [exact H | apply String.eqb_refl].
Qed.

(** *** Validation *)

Section Validation.

Variable parseURL : string -> option URL.
Variable allowlist : list string.

Lemma check_protocol_and_host_spec u :
  check_protocol_and_host allowlist u = inr tt
  <-> (protocol u = "http:" \/ protocol u = "https:") /\ In (host u) allowlist.
Proof.
  unfold check_protocol_and_host.
  destruct (Js.includes ["http:"; "https:"] (protocol u)) eqn:Hp; cbn [negb].
  - apply includes_In in Hp.
    destruct (Js.includes allowlist (host u)) eqn:Hh; cbn [negb].
    + apply includes_In in Hh. split; [intros _|reflexivity].
      split; [|exact Hh]. destruct Hp as [<- | [<- | []]]; auto.
    + split; [discriminate|]. intros [_ Hin]. apply includes_In in Hin.
      congruence.
  - split; [discriminate|]. intros [Hproto _].
    assert (Js.includes ["http:"; "https:"] (protocol u) = true) as Hin
      by (apply includes_In; destruct Hproto as [-> | ->]; cbn; auto).
    congruence.
Qed.

Lemma archive_validate_spec request archiveUrl ext :
  archive_validate parseURL allowlist request = inr (archiveUrl, ext)
  <-> archiveUrl = searchParams_get (searchParams request) "archive-url"
      /\ exists u,
           parseURL (Js.ToString archiveUrl) = Some u
           /\ ((ext = ".wacz" \/ ext = ".warc.gz")
               /\ exists p, pathname u = p +:+ ext)
           /\ (protocol u = "http:" \/ protocol u = "https:")
           /\ In (host u) allowlist.
Proof.
  unfold archive_validate, new_URL.
  set (url := searchParams_get (searchParams request) "archive-url").
  split.
  - destruct (parseURL (Js.ToString url)) as [u|] eqn:Hu; [|discriminate].
    destruct (Str.endsWith ".warc.gz" (pathname u)) eqn:Hgz.
    + destruct (check_protocol_and_host allowlist u) as [e|[]] eqn:Hc;
        [discriminate|].
      intros [= <- <-]. split; [reflexivity|]. exists u.
      apply check_protocol_and_host_spec in Hc as [Hp Hh].
      apply endsWith_spec in Hgz. rewrite Hu. auto 10.
    + destruct (Str.endsWith ".wacz" (pathname u)) eqn:Hw; [|discriminate].
      destruct (check_protocol_and_host allowlist u) as [e|[]] eqn:Hc;
        [discriminate|].
      intros [= <- <-]. split; [reflexivity|]. exists u.
      apply check_protocol_and_host_spec in Hc as [Hp Hh].
      apply endsWith_spec in Hw. rewrite Hu. auto 10.
  - intros (-> & u & Hu & (Hext & Hpath) & Hp & Hh). fold url in Hu.
    rewrite Hu.
    assert (Hc : check_protocol_and_host allowlist u = inr tt)
      by (apply check_protocol_and_host_spec; auto).
    rewrite Hc. apply endsWith_spec in Hpath.
    destruct Hext as [-> | ->].
    + rewrite Hpath, (suffixes_exclusive _ Hpath). reflexivity.
    + rewrite Hpath. destruct (Str.endsWith ".wacz" (pathname u)); reflexivity.
Qed.

Lemma variants_validate_spec request archiveUrl :
  (archive_validate parseURL allowlist request = inr (archiveUrl, ".wacz")
   <-> archive_wacz_validate parseURL allowlist request = inr archiveUrl)
  /\ (archive_validate parseURL allowlist request = inr (archiveUrl, ".warc.gz")
      <-> archive_warc_gz_validate parseURL allowlist request = inr archiveUrl).
Proof.
  unfold archive_validate, archive_wacz_validate, archive_warc_gz_validate,
    new_URL.
  destruct (parseURL
              (Js.ToString (searchParams_get (searchParams request) "archive-url")))
    as [u|]; [|split; split; discriminate].
  destruct (Str.endsWith ".wacz" (pathname u)) eqn:Hw;
    [rewrite (suffixes_exclusive _ Hw) |
     destruct (Str.endsWith ".warc.gz" (pathname u)) eqn:Hgz];
    cbn [negb];
    destruct (check_protocol_and_host allowlist u) as [e|[]];
    split; split; (discriminate || (intros [= <-]; reflexivity)).
Qed.

End Validation.

(** X1.  [archive.js] accepts a request exactly when its [archive-url]
    parses, its path ends in [.wacz] or [.warc.gz], its protocol is [http:]
    or [https:] and its host is in the allow list; the extension kept is the
    suffix of the path. *)
Theorem archive_validate_accepts
    (parseURL : string -> option URL) (allowlist : list string)
    (request : Request) (archiveUrl : Value) (ext : string) :
  archive_validate parseURL allowlist request = inr (archiveUrl, ext)
  <-> archiveUrl = searchParams_get (searchParams request) "archive-url"
      /\ exists u,
           parseURL (Js.ToString archiveUrl) = Some u
           /\ ((ext = ".wacz" \/ ext = ".warc.gz")
               /\ exists p, pathname u = p +:+ ext)
           /\ (protocol u = "http:" \/ protocol u = "https:")
           /\ In (host u) allowlist.
Proof. apply archive_validate_spec. Qed.

(** X2.  The generic function accepts, with the extension [.wacz], exactly
    the requests that [archive-wacz.js] accepts, and with [.warc.gz] exactly
    those that [archive-warc-gz.js] accepts. *)
Theorem generic_accepts_what_variants_accept
    (parseURL : string -> option URL) (allowlist : list string)
    (request : Request) (archiveUrl : Value) :
  (archive_validate parseURL allowlist request = inr (archiveUrl, ".wacz")
   <-> archive_wacz_validate parseURL allowlist request = inr archiveUrl)
  /\ (archive_validate parseURL allowlist request = inr (archiveUrl, ".warc.gz")
      <-> archive_warc_gz_validate parseURL allowlist request = inr archiveUrl).
Proof. apply variants_validate_spec. Qed.

(** *** Refusals *)

(** X3.  A method other than [GET] and [HEAD] is answered 405 by the four
    functions, with no body and before any outbound call, whatever the URL. *)
Theorem other_methods_get_405
    (parseURL : string -> option URL) (allowlist : list string) (net : Network)
    (request : Request) (context : Context) :
  method request <> "GET" -> method request <> "HEAD" ->
  run (archive parseURL allowlist request) net = (inr (bare_response 405), [])
  /\ run (archive_wacz parseURL allowlist request) net
     = (inr (bare_response 405), [])
  /\ run (archive_warc_gz parseURL allowlist request) net
     = (inr (bare_response 405), [])
  /\ embed parseURL request context
     = inr {| status := 405; response_headers := ∅; body := None |}.
Proof.
  intros Hget Hhead.
  assert (Hm : allowed_method request = false).
  { unfold allowed_method, Js.includes. cbn [existsb].
    destruct (String.eqb_spec (method request) "GET"); [contradiction|].
    destruct (String.eqb_spec (method request) "HEAD"); [contradiction|].
    reflexivity. }
  unfold run, archive, archive_wacz, archive_warc_gz, embed. rewrite Hm.
  repeat split.
Qed.

Lemma other_methods_get_405_witness :
  run (archive Sample.parseURL Sample.allowlist
         (Sample.request "DELETE" Sample.wacz_url ∅)) Sample.plain_origin
    = (inr (bare_response 405), [])
  /\ run (archive_wacz Sample.parseURL Sample.allowlist
            (Sample.request "DELETE" Sample.wacz_url ∅)) Sample.plain_origin
     = (inr (bare_response 405), [])
  /\ run (archive_warc_gz Sample.parseURL Sample.allowlist
            (Sample.request "DELETE" Sample.wacz_url ∅)) Sample.plain_origin
     = (inr (bare_response 405), [])
  /\ embed Sample.parseURL (Sample.request "DELETE" Sample.wacz_url ∅)
       {| next := Sample.page |}
     = inr {| status := 405; response_headers := ∅; body := None |}.
Proof.
  apply (other_methods_get_405 Sample.parseURL Sample.allowlist
           Sample.plain_origin (Sample.request "DELETE" Sample.wacz_url ∅)
           {| next := Sample.page |});
    discriminate.
Defined.

(** X4.  A [GET] or [HEAD] request whose [archive-url] does not parse, or
    parses to a URL that fails one of the checks, is answered 400 by
    [archive.js], with no body and before any outbound call. *)
Theorem invalid_reference_gets_400
    (parseURL : string -> option URL) (allowlist : list string) (net : Network)
    (request : Request) :
  allowed_method request = true ->
  (forall u,
     parseURL (Js.ToString (searchParams_get (searchParams request) "archive-url"))
       = Some u ->
     ~ passes_checks allowlist u) ->
  run (archive parseURL allowlist request) net = (inr (bare_response 400), []).
Proof.
  intros Hm Hbad. unfold run, archive. rewrite Hm. cbn [negb].
  destruct (archive_validate parseURL allowlist request) as [e | [url ext]] eqn:Hv.
  - reflexivity.
  - apply archive_validate_spec in Hv
      as (-> & u & Hu & (Hext & p & Hp) & Hproto & Hhost).
    destruct (Hbad u Hu). unfold passes_checks.
    split; [|split; assumption].
    destruct Hext as [-> | ->]; [left | right]; exists p; exact Hp.
Qed.

Lemma invalid_reference_gets_400_witness :
  run (archive Sample.parseURL Sample.allowlist
         (Sample.request "GET" "https://blocked.example/a.wacz" ∅))
      Sample.plain_origin
  = (inr (bare_response 400), []).
Proof.
  apply (invalid_reference_gets_400 Sample.parseURL Sample.allowlist
           Sample.plain_origin
           (Sample.request "GET" "https://blocked.example/a.wacz" ∅)).
  - reflexivity.
  - intros u Hu (_ & _ & Hhost). vm_compute in Hu. injection Hu as <-.
    cbn in Hhost. destruct Hhost as [Hhost | []]. discriminate.
Defined.

(** *** Outbound calls *)

(** X5.  Whatever the request and the network, [archive.js] makes no call,
    or the probe alone, or the probe and one transfer; the probe is a [HEAD]
    without any header of the client; the transfer is either the client's
    method and headers (pass-through) or no header and the client's method
    or [GET] (polyfill).  No call is made twice. *)
Theorem archive_calls
    (parseURL : string -> option URL) (allowlist : list string) (net : Network)
    (request : Request) :
  let archiveUrl := searchParams_get (searchParams request) "archive-url" in
  let calls := snd (run (archive parseURL allowlist request) net) in
  calls = []
  \/ calls = [probe_call archiveUrl]
  \/ calls = [probe_call archiveUrl; passthrough_call archiveUrl request]
  \/ calls = [probe_call archiveUrl; polyfill_call archiveUrl (method request)]
  \/ calls = [probe_call archiveUrl; polyfill_call archiveUrl "GET"].
Proof.
  intros archiveUrl calls. subst calls.
  destruct (allowed_method request) eqn:Hm;
    [|left; unfold run, archive; rewrite Hm; reflexivity].
  destruct (archive_validate parseURL allowlist request) as [e | [url ext]] eqn:Hv;
    [left; unfold run, archive; rewrite Hm, Hv; reflexivity|].
  pose proof Hv as Hurl. apply archive_validate_spec in Hurl as [Hurl _].
  fold archiveUrl in Hurl. subst url.
  destruct (net 0%nat (probe_call archiveUrl)) as [|probe] eqn:Hp.
  { right; left.
    rewrite (archive_probe_failure _ _ _ _ _ _ Hm Hv Hp). reflexivity. }
  rewrite (archive_dispatch _ _ _ _ _ _ _ Hm Hv Hp).
  destruct (supportsRange probe).
  - right; right; left.
    unfold archive_passthrough, bind, fetch. cbn [length].
    fold (passthrough_call archiveUrl request).
    destruct (net 1%nat (passthrough_call archiveUrl request)); reflexivity.
  - unfold archive_polyfill, bind, fetch. cbn [length].
    destruct (Js.ToBoolean (probedByteLength probe)).
    + right; right; right; left.
      fold (polyfill_call archiveUrl (method request)).
      destruct (net 1%nat (polyfill_call archiveUrl (method request)));
        reflexivity.
    + right; right; right; right.
      fold (polyfill_call archiveUrl "GET").
      destruct (net 1%nat (polyfill_call archiveUrl "GET")); reflexivity.
Qed.

(** *** The polyfill on a [GET] request *)

Lemma ToString_byteLength (data : ArrayBuffer) :
  Js.ToString (byteLength data) = Js.string_of_N (N.of_nat (length data)).
Proof.
  unfold byteLength. cbn [Js.ToString Js.Number_toString].
  rewrite <- nat_N_Z. apply string_of_Z_of_N.
Qed.

(** The response of the polyfill, from what the parser returns. *)
Lemma polyfill_get_response
    (parseURL : string -> option URL) (allowlist : list string) (net : Network)
    (request : Request) (archiveUrl : Value) (ext : string)
    (probe transfer : OriginResponse) (total : N) (first last : Number) :
  method request = "GET" ->
  archive_validate parseURL allowlist request = inr (archiveUrl, ext) ->
  net 0%nat (probe_call archiveUrl) = Fetched probe ->
  supportsRange probe = false ->
  announces probe total ->
  net 1%nat (polyfill_call archiveUrl "GET") = Fetched transfer ->
  N.of_nat (length (origin_body transfer)) = total ->
  (forall len, Js.ToNumber len = Int (Z.of_N total) ->
     parseRangeHeader (Headers_get (headers request) "range") len
     = [VNumber first; VNumber last]) ->
  exists response : Response ArrayBuffer,
    run (archive parseURL allowlist request) net
      = (inr response, [probe_call archiveUrl; polyfill_call archiveUrl "GET"])
    /\ status response = 206
    /\ body response
       = Some (slice_range [VNumber first; VNumber last] (origin_body transfer))
    /\ response_headers response !! "content-range"
       = Some ("bytes " +:+ Js.Number_toString first +:+ "-"
                 +:+ Js.Number_toString last +:+ "/" +:+ Js.string_of_N total)
    /\ response_headers response !! "content-length"
       = Some (Js.string_of_N
                 (N.of_nat
                    (length (slice_range [VNumber first; VNumber last]
                               (origin_body transfer))))).
Proof.
  intros Hget Hvalid Hprobe Hnorange Hann Htransfer Hlen Hparse.
  assert (Hallowed : allowed_method request = true)
    by (unfold allowed_method; rewrite Hget; reflexivity).
  assert (Hmethod :
    (if Js.ToBoolean (probedByteLength probe) then method request else "GET")
    = "GET") by (rewrite Hget; destruct (Js.ToBoolean _); reflexivity).
  rewrite (archive_dispatch parseURL allowlist net request archiveUrl ext probe
             Hallowed Hvalid Hprobe), Hnorange.
  rewrite (archive_polyfill_body net [probe_call archiveUrl] request archiveUrl
             (archive_headers ext) (probedByteLength probe) transfer);
    [| rewrite Hget; reflexivity | rewrite Hmethod; exact Htransfer].
  rewrite Hmethod.
  destruct (polyfill_length probe transfer total Hnorange Hann Hlen)
    as [Hnum Hstr].
  rewrite (Hparse _ Hnum).
  eexists. split; [reflexivity|].
  cbn [status body response_headers]. repeat split.
  - rewrite lookup_fmap, copy_etag_other by discriminate.
    rewrite lookup_insert_ne by discriminate. rewrite lookup_insert_eq.
    unfold content_range_text.
    cbn [Js.get lookup list_lookup default from_option id Js.ToString
         fmap option_fmap option_map].
    rewrite Hstr. reflexivity.
  - rewrite lookup_fmap, copy_etag_other by discriminate.
    rewrite lookup_insert_eq.
    cbn [fmap option_fmap option_map Js.ToString].
    rewrite ToString_byteLength. reflexivity.
Qed.


(** A slice whose end is before its start is empty. *)
Lemma slice_inverted (data : ArrayBuffer) (A : N) (last : Z) :
  -1 <= last < Z.of_N A -> last < Z.of_nat (length data) ->
  slice_range [VNumber (Int (Z.of_N A)); VNumber (Int last)] data = [].
Proof.
  intros Hlast Hbound. unfold slice_range, ArrayBuffer_slice.
  cbn [Js.get lookup list_lookup default from_option id Js.add Js.ToNumber
       ToInteger].
  unfold clamp_index.
  destruct (Z.ltb_spec (Z.of_N A) 0) as [H | _]; [lia|].
  destruct (Z.ltb_spec (last + 1) 0) as [H | _]; [lia|].
  replace (Z.to_nat
             (((last + 1) `min` Z.of_nat (length data)
               - Z.of_N A `min` Z.of_nat (length data)) `max` 0))
    with 0%nat by lia.
  reflexivity.
Qed.





(** X8.  A header [bytes=A-B] whose end is before its start, the start
    within [Number.MAX_SAFE_INTEGER], is not refused: the polyfill answers
    206 with an empty body, [content-length: 0] and a content-range that
    names the start as given. *)
Theorem polyfill_serves_inverted_range_empty
    (parseURL : string -> option URL) (allowlist : list string) (net : Network)
    (request : Request) (archiveUrl : Value) (ext : string)
    (probe transfer : OriginResponse) (A B total : N) :
  method request = "GET" ->
  archive_validate parseURL allowlist request = inr (archiveUrl, ext) ->
  net 0%nat (probe_call archiveUrl) = Fetched probe ->
  supportsRange probe = false ->
  announces probe total ->
  net 1%nat (polyfill_call archiveUrl "GET") = Fetched transfer ->
  N.of_nat (length (origin_body transfer)) = total ->
  headers request !! "range"
    = Some ("bytes=" +:+ Js.string_of_N A +:+ "-" +:+ Js.string_of_N B) ->
  (B < A)%N ->
  Z.of_N A <= Js.MAX_SAFE_INTEGER ->
  exists response : Response ArrayBuffer,
    run (archive parseURL allowlist request) net
      = (inr response, [probe_call archiveUrl; polyfill_call archiveUrl "GET"])
    /\ status response = 206
    /\ body response = Some []
    /\ response_headers response !! "content-range"
       = Some ("bytes " +:+ Js.string_of_N A +:+ "-"
                 +:+ Js.string_of_Z (Z.min (Z.of_N B) (Z.of_N total - 1)) +:+ "/"
                 +:+ Js.string_of_N total)
    /\ response_headers response !! "content-length" = Some "0".
Proof.
  intros Hget Hvalid Hprobe Hnorange Hann Htransfer Hlen Hrange HBA _.
  destruct (polyfill_get_response parseURL allowlist net request archiveUrl ext
              probe transfer total (Int (Z.of_N A))
              (Int (Z.min (Z.of_N B) (Z.of_N total - 1)))
              Hget Hvalid Hprobe Hnorange Hann Htransfer Hlen)
    as (response & Hrun & Hstatus & Hbody & Hcr & Hcl).
  { intros len Hnum. unfold Headers_get. rewrite Hrange.
    rewrite (parseRangeHeader_closed A B len _ Hnum). do 4 f_equal.
    destruct (Z.leb_spec (Z.of_N total) (Z.of_N B)); lia. }
  rewrite slice_inverted in Hbody, Hcl by lia.
  cbn [Js.Number_toString] in Hcr. rewrite string_of_Z_of_N in Hcr.
  exists response. repeat split; assumption.
Qed.

Lemma polyfill_serves_inverted_range_empty_witness :
  exists response : Response ArrayBuffer,
    run (archive Sample.parseURL Sample.allowlist
           (Sample.request "GET" Sample.wacz_url {["range" := "bytes=7-3"]}))
        Sample.sized_origin
      = (inr response,
         [probe_call (VString Sample.wacz_url);
          polyfill_call (VString Sample.wacz_url) "GET"])
    /\ status response = 206
    /\ body response = Some []
    /\ response_headers response !! "content-range"
       = Some ("bytes " +:+ Js.string_of_N 7 +:+ "-"
                 +:+ Js.string_of_Z (Z.min (Z.of_N 3) (Z.of_N 10 - 1)) +:+ "/"
                 +:+ Js.string_of_N 10)
    /\ response_headers response !! "content-length" = Some "0".
Proof.
  apply (polyfill_serves_inverted_range_empty Sample.parseURL Sample.allowlist
           Sample.sized_origin
           (Sample.request "GET" Sample.wacz_url {["range" := "bytes=7-3"]})
           (VString Sample.wacz_url) ".wacz"
           Sample.sized_probe Sample.sized_transfer 7%N 3%N 10%N);
    try reflexivity.
  - vm_compute. right. reflexivity.
  - unfold Js.MAX_SAFE_INTEGER. lia.
Defined.

(** *** The polyfill on a [HEAD] request *)

(** X9.  When the probe announces a length within
    [Number.MAX_SAFE_INTEGER] but no range support, a [HEAD] request without
    Range header makes [archive.js] send a second [HEAD]; the answer has
    status 206, no body, [content-length: 0] and the content-range of the
    whole object. *)
Theorem head_polyfill_with_length
    (parseURL : string -> option URL) (allowlist : list string) (net : Network)
    (request : Request) (archiveUrl : Value) (ext : string)
    (probe transfer : OriginResponse) (total : N) :
  method request = "HEAD" ->
  archive_validate parseURL allowlist request = inr (archiveUrl, ext) ->
  net 0%nat (probe_call archiveUrl) = Fetched probe ->
  supportsRange probe = false ->
  origin_headers probe !! "content-length" = Some (Js.string_of_N total) ->
  Z.of_N total <= Js.MAX_SAFE_INTEGER ->
  net 1%nat (polyfill_call archiveUrl "HEAD") = Fetched transfer ->
  headers request !! "range" = None ->
  exists response : Response ArrayBuffer,
    run (archive parseURL allowlist request) net
      = (inr response, [probe_call archiveUrl; polyfill_call archiveUrl "HEAD"])
    /\ status response = 206
    /\ body response = None
    /\ response_headers response !! "content-length" = Some "0"
    /\ response_headers response !! "content-range"
       = Some ("bytes 0-" +:+ Js.string_of_Z (Z.of_N total - 1) +:+ "/"
                 +:+ Js.string_of_N total).
Proof.
  intros Hhead Hvalid Hprobe Hnorange Hlen _ Htransfer Hrange.
  assert (Hallowed : allowed_method request = true)
    by (unfold allowed_method; rewrite Hhead; reflexivity).
  assert (Hknown : probedByteLength probe = VString (Js.string_of_N total)).
  { unfold probedByteLength, Headers_get. rewrite Hlen. cbn [Js.ToBoolean].
    destruct (String.eqb_spec (Js.string_of_N total) EmptyString) as [He | _];
      [destruct (string_of_N_nonempty _ He) | reflexivity]. }
  assert (Htrue : Js.ToBoolean (probedByteLength probe) = true).
  { rewrite Hknown. cbn [Js.ToBoolean].
    destruct (String.eqb_spec (Js.string_of_N total) EmptyString) as [He | _];
      [destruct (string_of_N_nonempty _ He) | reflexivity]. }
  rewrite (archive_dispatch parseURL allowlist net request archiveUrl ext probe
             Hallowed Hvalid Hprobe), Hnorange.
  rewrite (archive_polyfill_head net [probe_call archiveUrl] request archiveUrl
             (archive_headers ext) (probedByteLength probe) transfer Hhead);
    [| rewrite Htrue; exact Htransfer].
  rewrite Htrue, Hknown.
  replace (Headers_get (headers request) "range") with VNull
    by (unfold Headers_get; rewrite Hrange; reflexivity).
  rewrite (parseRangeHeader_absent VNull _ (Z.of_N total));
    [| discriminate | apply StringToNumber_string_of_N].
  eexists. split; [reflexivity|]. cbn [status body response_headers].
  repeat split.
  - rewrite lookup_fmap, copy_etag_other by discriminate.
    rewrite lookup_insert_eq. reflexivity.
  - rewrite lookup_fmap, copy_etag_other by discriminate.
    rewrite lookup_insert_ne by discriminate. rewrite lookup_insert_eq.
    reflexivity.
Qed.

Lemma head_polyfill_with_length_witness :
  exists response : Response ArrayBuffer,
    run (archive Sample.parseURL Sample.allowlist
           (Sample.request "HEAD" Sample.wacz_url ∅)) Sample.sized_origin
      = (inr response,
         [probe_call (VString Sample.wacz_url);
          polyfill_call (VString Sample.wacz_url) "HEAD"])
    /\ status response = 206
    /\ body response = None
    /\ response_headers response !! "content-length" = Some "0"
    /\ response_headers response !! "content-range"
       = Some ("bytes 0-" +:+ Js.string_of_Z (Z.of_N 10 - 1) +:+ "/"
                 +:+ Js.string_of_N 10).
Proof.
  apply (head_polyfill_with_length Sample.parseURL Sample.allowlist
           Sample.sized_origin (Sample.request "HEAD" Sample.wacz_url ∅)
           (VString Sample.wacz_url) ".wacz"
           Sample.sized_probe Sample.sized_probe 10%N);
    try reflexivity.
  unfold Js.MAX_SAFE_INTEGER. lia.
Defined.



(** *** The pass-through *)

Lemma copy_content_range_other response (h : HeaderObject) name :
  name <> "content-range" -> copy_content_range response h !! name = h !! name.
Proof.
  intros Hn. unfold copy_content_range.
  destruct (Js.ToBoolean (Headers_get (origin_headers response) "content-range"));
    [|reflexivity].
  apply lookup_insert_ne. congruence.
Qed.


Lemma archive_headers_lookup ext :
  archive_headers ext !! "access-control-allow-origin" = Some (VString "*")
  /\ archive_headers ext !! "accept-ranges" = Some (VString "bytes")
  /\ archive_headers ext !! "etag" = None
  /\ archive_headers ext !! "content-range" = None.
Proof.
  unfold archive_headers. destruct (String.eqb ext ".wacz"); repeat split.
Qed.

Lemma passthrough_run net request archiveUrl (h : HeaderObject) transfer probe_log :
  net (length probe_log) (passthrough_call archiveUrl request) = Fetched transfer ->
  archive_passthrough request archiveUrl h net probe_log
  = (new_Response (read_body request transfer)
       (init_with_headers (origin_status transfer)
          (copy_content_range transfer
             (copy_etag transfer
                (<["content-length" :=
                     Headers_get (origin_headers transfer) "content-length"]> h)))),
     probe_log ++ [passthrough_call archiveUrl request]).
Proof.
  intros Hnet. unfold archive_passthrough, bind, fetch.
  fold (passthrough_call archiveUrl request). rewrite Hnet. reflexivity.
Qed.



(** X12.  On the pass-through a [GET] whose origin answers with a status
    that admits no body (204, 205, 304) gets no response: the body read from
    the origin, although empty, is handed to [Response], which throws. *)
Theorem passthrough_bodiless_status_throws
    (parseURL : string -> option URL) (allowlist : list string) (net : Network)
    (request : Request) (archiveUrl : Value) (ext : string)
    (probe transfer : OriginResponse) :
  method request = "GET" ->
  archive_validate parseURL allowlist request = inr (archiveUrl, ext) ->
  net 0%nat (probe_call archiveUrl) = Fetched probe ->
  supportsRange probe = true ->
  net 1%nat (passthrough_call archiveUrl request) = Fetched transfer ->
  origin_status transfer = 204 \/ origin_status transfer = 205
    \/ origin_status transfer = 304 ->
  run (archive parseURL allowlist request) net
  = (inl TypeError, [probe_call archiveUrl; passthrough_call archiveUrl request]).
Proof.
  intros Hget Hvalid Hprobe Hrange Htransfer Hstatus.
  assert (Hallowed : allowed_method request = true)
    by (unfold allowed_method; rewrite Hget; reflexivity).
  rewrite (archive_dispatch parseURL allowlist net request archiveUrl ext probe
             Hallowed Hvalid Hprobe), Hrange.
  rewrite (passthrough_run net request archiveUrl (archive_headers ext) transfer
             [probe_call archiveUrl] Htransfer).
  unfold new_Response, init_with_headers, read_body.
  cbn [init_status init_headers default from_option id].
  rewrite Hget. destruct Hstatus as [-> | [-> | ->]]; reflexivity.
Qed.

Lemma passthrough_bodiless_status_throws_witness :
  run (archive Sample.parseURL Sample.allowlist
         (Sample.request "GET" Sample.wacz_url {["if-none-match" := "v1"]}))
      Sample.not_modified_origin
  = (inl TypeError,
     [probe_call (VString Sample.wacz_url);
      passthrough_call (VString Sample.wacz_url)
        (Sample.request "GET" Sample.wacz_url {["if-none-match" := "v1"]})]).
Proof.
  apply (passthrough_bodiless_status_throws Sample.parseURL Sample.allowlist
           Sample.not_modified_origin
           (Sample.request "GET" Sample.wacz_url {["if-none-match" := "v1"]})
           (VString Sample.wacz_url) ".wacz"
           Sample.ranged_probe Sample.not_modified);
    try reflexivity.
  right. right. reflexivity.
Defined.

(** *** More on the parser *)

Lemma dash_free_cons c s :
  Str.includes "-" (String c s) = false ->
  Ascii.eqb "-" c = false /\ Str.includes "-" s = false.
Proof.
  cbn [Str.includes Str.startsWith]. rewrite andb_true_r.
  apply orb_false_elim.
Qed.

Lemma split_pieces_dash_free s :
  Forall (fun p => Str.includes "-" p = false) (Str.split_from "-" 0 s).
Proof.
  induction s as [|c s IH]; [repeat constructor|].
  cbn [Str.split_from Str.startsWith]. rewrite andb_true_r.
  destruct (Ascii.eqb "-" c) eqn:Hc.
  - constructor; [reflexivity | exact IH].
  - destruct (Str.split_from "-" 0 s) as [|p l]; cbn [Str.push_front].
    + repeat constructor. cbn [Str.includes Str.startsWith]. rewrite Hc. reflexivity.
    + inversion IH as [|? ? Hp Hl]; subst. constructor; [|exact Hl].
      cbn [Str.includes Str.startsWith]. rewrite Hc, Hp. reflexivity.
Qed.

Lemma trimStart_dash_free s :
  Str.includes "-" s = false -> Str.startsWith "-" (Str.trimStart s) = false.
Proof.
  induction s as [|c s IH]; [reflexivity|]. intros H.
  apply dash_free_cons in H as [Hc Hs]. cbn [Str.trimStart].
  destruct (Str.is_whitespace c); [exact (IH Hs)|].
  cbn [Str.startsWith]. rewrite Hc. reflexivity.
Qed.

(** A piece without dash is read as a number that is not negative, or not
    read at all. *)
Lemma parseInt_dash_free p :
  Str.includes "-" p = false ->
  Js.parseInt (VString p) = NaN
  \/ exists z, Js.parseInt (VString p) = Int z /\ 0 <= z.
Proof.
  intros Hp. unfold Js.parseInt, Js.strip_sign. cbn [Js.ToString].
  rewrite (trimStart_dash_free p Hp).
  assert (Hsign : forall R text,
    match Js.leading_digits R None text with
    | Some n => Int (1 * Z.of_N n)
    | None => NaN
    end = NaN
    \/ exists z,
         match Js.leading_digits R None text with
         | Some n => Int (1 * Z.of_N n)
         | None => NaN
         end = Int z /\ 0 <= z).
  { intros R text. destruct (Js.leading_digits R None text) as [n|];
      [right; eexists; split; [reflexivity | lia] | left; reflexivity]. }
  destruct (Str.startsWith "+" (Str.trimStart p)); cbv beta iota zeta;
    match goal with
    | |- context [if ?b then _ else _] => destruct b
    end; apply Hsign.
Qed.

(** X13.  Whatever the header, and for a length within
    [Number.MAX_SAFE_INTEGER], the parser returns at least two entries, the
    first two being numbers: the start is never a negative number, and the
    end lies between -1 and the length, this one excluded. *)
Theorem range_positions_are_not_negative (range len : Value) (n : Z) :
  Js.ToNumber len = Int n ->
  0 <= n <= Js.MAX_SAFE_INTEGER ->
  exists (first : Number) (last : Z) (rest : list Value),
    parseRangeHeader range len = VNumber first :: VNumber (Int last) :: rest
    /\ (forall z, first = Int z -> 0 <= z)
    /\ -1 <= last < n.
Proof.
  intros Hn [Hpos _]. rewrite parseRangeHeader_steps.
  exists (Js.parseInt (Js.get (initial_coord range len) 0)).
  assert (Hend : forall parsed,
    parsed = NaN \/ (exists z, parsed = Int z /\ 0 <= z) ->
    exists last, clamped_end parsed len = Int last /\ -1 <= last < n).
  { intros parsed [-> | (z & -> & Hz)].
    - rewrite (clamped_end_NaN len n Hn). eexists. split; [reflexivity | lia].
    - rewrite (clamped_end_Int z len n Hn). eexists. split; [reflexivity|].
      destruct (Z.leb_spec n z); lia. }
  assert (Hpieces :
    (Js.parseInt (Js.get (initial_coord range len) 0) = NaN
     \/ exists z, Js.parseInt (Js.get (initial_coord range len) 0) = Int z
                  /\ 0 <= z)
    /\ (Js.parseInt (Js.get (initial_coord range len) 1) = NaN
        \/ exists z, Js.parseInt (Js.get (initial_coord range len) 1) = Int z
                     /\ (0 <= z \/ z = n - 1))).
  { unfold initial_coord.
    destruct range as [| |r|];
      try (rewrite (sub_one len n Hn);
           cbn [Js.get lookup list_lookup default from_option id];
           rewrite !parseInt_Int; split; right; eexists;
           (split; [reflexivity | lia])).
    rewrite split_dash.
    pose proof (split_pieces_dash_free (Str.replace "bytes=" EmptyString r))
      as Hfree.
    destruct (Str.split_from "-" 0 (Str.replace "bytes=" EmptyString r))
      as [|p0 [|p1 l]];
      cbn [fmap list_fmap Js.get lookup list_lookup default from_option id].
    - split; left; reflexivity.
    - inversion Hfree as [|? ? H0 _]; subst.
      split; [|left; reflexivity].
      destruct (parseInt_dash_free p0 H0) as [-> | (z & -> & Hz)];
        [left | right; exists z]; auto.
    - inversion Hfree as [|? ? H0 Hrest]; subst.
      inversion Hrest as [|? ? H1 _]; subst. split.
      + destruct (parseInt_dash_free p0 H0) as [-> | (z & -> & Hz)];
          [left | right; exists z]; auto.
      + destruct (parseInt_dash_free p1 H1) as [-> | (z & -> & Hz)];
          [left | right; exists z]; auto. }
  destruct Hpieces as [Hfirst Hsecond].
  assert (Hlast : exists last,
    clamped_end (Js.parseInt (Js.get (initial_coord range len) 1)) len = Int last
    /\ -1 <= last < n).
  { destruct Hsecond as [-> | (z & -> & [Hz | ->])].
    - apply Hend. left. reflexivity.
    - apply Hend. right. exists z. auto.
    - rewrite (clamped_end_Int (n - 1) len n Hn).
      replace (n <=? n - 1) with false by lia.
      eexists. split; [reflexivity | lia]. }
  destruct Hlast as (last & -> & Hbound).
  exists last, (drop 2 (initial_coord range len)).
  split; [reflexivity|]. split; [|exact Hbound].
  intros z Hz. destruct Hfirst as [Hnan | (z' & Hz' & Hle)]; congruence.
Qed.

Lemma range_positions_are_not_negative_witness :
  exists (first : Number) (last : Z) (rest : list Value),
    parseRangeHeader (VString "bytes=-5") (VString "1000")
      = VNumber first :: VNumber (Int last) :: rest
    /\ (forall z, first = Int z -> 0 <= z)
    /\ -1 <= last < 1000.
Proof.
  apply (range_positions_are_not_negative (VString "bytes=-5") (VString "1000")
           1000);
    [reflexivity | unfold Js.MAX_SAFE_INTEGER; lia].
Defined.

(** X14.  A suffix range [bytes=-N], which asks for the last [N] bytes, is
    not read as such: the start is [NaN] and [N] is taken as the end
    position, capped at the last byte.  The length is within
    [Number.MAX_SAFE_INTEGER]. *)
Theorem suffix_range_is_read_as_end (N_ : N) (len : Value) (n : Z) :
  Js.ToNumber len = Int n ->
  0 <= n <= Js.MAX_SAFE_INTEGER ->
  parseRangeHeader (VString ("bytes=-" +:+ Js.string_of_N N_)) len
  = [VNumber NaN; VNumber (Int (if n <=? Z.of_N N_ then n - 1 else Z.of_N N_))].
Proof.
  intros Hn _. rewrite parseRangeHeader_steps.
  assert (initial_coord (VString ("bytes=-" +:+ Js.string_of_N N_)) len
          = [VString EmptyString; VString (Js.string_of_N N_)]) as ->.
  { unfold initial_coord.
    change ("bytes=-" +:+ Js.string_of_N N_)
      with ("bytes=" +:+ EmptyString +:+ String "-" (Js.string_of_N N_)).
    rewrite replace_bytes_prefix, split_dash.
    rewrite split_from_digits_dash by reflexivity.
    rewrite split_from_digits by apply string_of_N_digits. reflexivity. }
  cbn [Js.get lookup list_lookup default from_option id drop].
  rewrite parseInt_empty, parseInt_string_of_N, (clamped_end_Int _ len n Hn).
  reflexivity.
Qed.

Lemma suffix_range_is_read_as_end_witness :
  parseRangeHeader (VString ("bytes=-" +:+ Js.string_of_N 500)) (VString "1000")
  = [VNumber NaN;
     VNumber (Int (if 1000 <=? Z.of_N 500 then 1000 - 1 else Z.of_N 500))].
Proof.
  apply (suffix_range_is_read_as_end 500 (VString "1000") 1000);
    [reflexivity | unfold Js.MAX_SAFE_INTEGER; lia].
Defined.

(** X15.  The parser keeps the start of a closed range [bytes=A-B] as it is
    and caps the end: [B] when it is below the length, the last position
    otherwise.  The start and the length are within
    [Number.MAX_SAFE_INTEGER]. *)
Theorem closed_range_end_is_capped (A B : N) (len : Value) (n : Z) :
  Js.ToNumber len = Int n ->
  Z.of_N A <= Js.MAX_SAFE_INTEGER ->
  0 <= n <= Js.MAX_SAFE_INTEGER ->
  parseRangeHeader
    (VString ("bytes=" +:+ Js.string_of_N A +:+ "-" +:+ Js.string_of_N B)) len
  = [VNumber (Int (Z.of_N A));
     VNumber (Int (if Z.of_N B <? n then Z.of_N B else n - 1))].
Proof.
  intros Hn _ _. rewrite (parseRangeHeader_closed A B len n Hn). do 4 f_equal.
  destruct (Z.leb_spec n (Z.of_N B)), (Z.ltb_spec (Z.of_N B) n); lia.
Qed.

Lemma closed_range_end_is_capped_witness :
  parseRangeHeader
    (VString ("bytes=" +:+ Js.string_of_N 100 +:+ "-" +:+ Js.string_of_N 5000))
    (VNumber (Int 1000))
  = [VNumber (Int (Z.of_N 100));
     VNumber (Int (if Z.of_N 5000 <? 1000 then Z.of_N 5000 else 1000 - 1))].
Proof.
  apply (closed_range_end_is_capped 100 5000 (VNumber (Int 1000)) 1000);
    [reflexivity | unfold Js.MAX_SAFE_INTEGER; lia
     | unfold Js.MAX_SAFE_INTEGER; lia].
Defined.

(** X16.  Called without a header ([null]), the parser returns the whole
    object, [0, n - 1], whether the length comes as a number or as the text
    of a content-length, as long as it is within
    [Number.MAX_SAFE_INTEGER]. *)
Theorem absent_header_spans_object (len : Value) (n : Z) :
  Js.ToNumber len = Int n ->
  0 <= n <= Js.MAX_SAFE_INTEGER ->
  parseRangeHeader VNull len = [VNumber (Int 0); VNumber (Int (n - 1))].
Proof.
  intros Hn _. apply parseRangeHeader_absent; [discriminate | exact Hn].
Qed.

Lemma absent_header_spans_object_witness :
  parseRangeHeader VNull (VString "1000")
  = [VNumber (Int 0); VNumber (Int (1000 - 1))].
Proof.
  apply (absent_header_spans_object (VString "1000") 1000);
    [reflexivity | unfold Js.MAX_SAFE_INTEGER; lia].
Defined.

(** *** [archive-warc-gz.js] *)

(** X17.  [archive-warc-gz.js] makes one call, a [GET] without header, for
    a [GET] and for a [HEAD] request alike.  When the origin answers, with
    whatever status, the function answers 200 with the whole body and no
    header; when the call fails it answers 404 with no body. *)
Theorem warc_gz_serves_whole_body
    (parseURL : string -> option URL) (allowlist : list string) (net : Network)
    (request : Request) (archiveUrl : Value) :
  allowed_method request = true ->
  archive_warc_gz_validate parseURL allowlist request = inr archiveUrl ->
  snd (run (archive_warc_gz parseURL allowlist request) net)
    = [polyfill_call archiveUrl "GET"]
  /\ (forall origin,
        net 0%nat (polyfill_call archiveUrl "GET") = Fetched origin ->
        fst (run (archive_warc_gz parseURL allowlist request) net)
        = inr {| status := 200; response_headers := ∅;
                 body := Some (origin_body origin) |})
  /\ (net 0%nat (polyfill_call archiveUrl "GET") = NetworkError ->
      fst (run (archive_warc_gz parseURL allowlist request) net)
      = inr (bare_response 404)).
Proof.
  intros Hallowed Hvalid. unfold run, archive_warc_gz.
  rewrite Hallowed, Hvalid. cbn [negb].
  unfold bind at 1. unfold attempt, archive_warc_gz_serve, bind, fetch.
  cbn [length]. fold (polyfill_call archiveUrl "GET").
  destruct (net 0%nat (polyfill_call archiveUrl "GET")) as [|origin];
    (split; [reflexivity|]); split; intros; try discriminate.
  - reflexivity.
  - match goal with H : Fetched _ = Fetched _ |- _ => injection H as <- end.
    reflexivity.
Qed.

Lemma warc_gz_serves_whole_body_witness :
  snd (run (archive_warc_gz Sample.parseURL Sample.allowlist
              (Sample.request "HEAD" Sample.warc_gz_url ∅))
         Sample.missing_origin)
    = [polyfill_call (VString Sample.warc_gz_url) "GET"]
  /\ (forall origin,
        Sample.missing_origin 0%nat
          (polyfill_call (VString Sample.warc_gz_url) "GET") = Fetched origin ->
        fst (run (archive_warc_gz Sample.parseURL Sample.allowlist
                    (Sample.request "HEAD" Sample.warc_gz_url ∅))
               Sample.missing_origin)
        = inr {| status := 200; response_headers := ∅;
                 body := Some (origin_body origin) |})
  /\ (Sample.missing_origin 0%nat
        (polyfill_call (VString Sample.warc_gz_url) "GET") = NetworkError ->
      fst (run (archive_warc_gz Sample.parseURL Sample.allowlist
                  (Sample.request "HEAD" Sample.warc_gz_url ∅))
             Sample.missing_origin)
      = inr (bare_response 404)).
Proof.
  apply (warc_gz_serves_whole_body Sample.parseURL Sample.allowlist
           Sample.missing_origin (Sample.request "HEAD" Sample.warc_gz_url ∅)
           (VString Sample.warc_gz_url));
    reflexivity.
Defined.

(** *** [archive-wacz.js] beside [archive.js] *)

(** X18.  On a [GET] request that [archive.js] does not accept as a
    [.warc.gz] archive, [archive-wacz.js] and [archive.js] do the same:
    the same outbound calls and the same response or exception, headers
    included, against every network. *)
Theorem wacz_agrees_with_generic_on_get
    (parseURL : string -> option URL) (allowlist : list string) (net : Network)
    (request : Request) :
  method request = "GET" ->
  (forall archiveUrl,
     archive_validate parseURL allowlist request <> inr (archiveUrl, ".warc.gz")) ->
  run (archive_wacz parseURL allowlist request) net
  = run (archive parseURL allowlist request) net.
Proof.
  intros Hget Hnot.
  assert (Hbody : String.eqb (method request) "HEAD" = false)
    by (rewrite Hget; reflexivity).
  unfold run, archive_wacz, archive.
  destruct (allowed_method request); cbn [negb]; [|reflexivity].
  destruct (archive_validate parseURL allowlist request) as [e | [url ext]] eqn:Hv.
  - destruct (archive_wacz_validate parseURL allowlist request) as [e' | url] eqn:Hw;
      [reflexivity|].
    apply (variants_validate_spec parseURL allowlist) in Hw.
    congruence.
  - pose proof Hv as Hacc.
    apply archive_validate_spec in Hacc as (_ & _ & _ & ([-> | ->] & _) & _);
      [|destruct (Hnot url eq_refl)].
    apply (variants_validate_spec parseURL allowlist) in Hv.
    rewrite Hv. cbn [String.eqb Ascii.eqb Bool.eqb andb].
    unfold bind, attempt, fetch. cbn [length].
    destruct (net 0%nat _) as [|probe]; [reflexivity|].
    destruct (supportsRange probe); [reflexivity|].
    unfold archive_wacz_polyfill, archive_polyfill, bind, fetch. cbn [length app].
    destruct (net 1%nat _) as [|transfer]; [reflexivity|].
    unfold read_body. rewrite Hbody. reflexivity.
Qed.

Lemma wacz_agrees_with_generic_on_get_witness :
  run (archive_wacz Sample.parseURL Sample.allowlist
         (Sample.request "GET" Sample.wacz_url {["range" := "bytes=2-5"]}))
      Sample.sized_origin
  = run (archive Sample.parseURL Sample.allowlist
           (Sample.request "GET" Sample.wacz_url {["range" := "bytes=2-5"]}))
      Sample.sized_origin.
Proof.
  apply (wacz_agrees_with_generic_on_get Sample.parseURL Sample.allowlist
           Sample.sized_origin
           (Sample.request "GET" Sample.wacz_url {["range" := "bytes=2-5"]})).
  - reflexivity.
  - intros archiveUrl. vm_compute. discriminate.
Defined.

(** *** The embed function *)

(** X19.  The embed function accepts a request exactly when its
    [archive-url] and its [original-url] both parse: neither the suffix of
    the path, nor the protocol, nor the host is looked at. *)
Theorem embed_validate_accepts
    (parseURL : string -> option URL) (request : Request)
    (archiveUrl originalUrl : Value) :
  embed_validate parseURL request = inr (archiveUrl, originalUrl)
  <-> archiveUrl = searchParams_get (searchParams request) "archive-url"
      /\ originalUrl = searchParams_get (searchParams request) "original-url"
      /\ is_Some (parseURL (Js.ToString archiveUrl))
      /\ is_Some (parseURL (Js.ToString originalUrl)).
Proof.
  unfold embed_validate, new_URL. split.
  - destruct (parseURL (Js.ToString (searchParams_get _ "archive-url")))
      as [a|] eqn:Ha; [|discriminate].
    destruct (parseURL (Js.ToString (searchParams_get _ "original-url")))
      as [o|] eqn:Ho; [|discriminate].
    intros [= <- <-]. rewrite Ha, Ho. repeat split; eexists; reflexivity.
  - intros (-> & -> & [a Ha] & [o Ho]). rewrite Ha, Ho. reflexivity.
Qed.

Lemma embed_headers_lookup (page_headers : Headers) name :
  (Js.ToString <$>
     (VString <$>
        ((Js.ToString <$>
            ({["access-control-allow-origin" := VString "*"]} : HeaderObject))
         ∪ page_headers))) !! name
  = if String.eqb name "access-control-allow-origin" then Some "*"
    else page_headers !! name.
Proof.
  rewrite !lookup_fmap, map_fmap_singleton. cbn [Js.ToString].
  destruct (String.eqb_spec name "access-control-allow-origin") as [-> | Hne].
  - rewrite (lookup_union_Some_l _ _ _ "*") by apply lookup_singleton_eq.
    reflexivity.
  - rewrite lookup_union_r by (apply lookup_singleton_ne; congruence).
    destruct (page_headers !! name); reflexivity.
Qed.

(** X20.  On a valid request the embed function answers with the status of
    the static page and its headers, to which it adds
    [access-control-allow-origin: *]; the content type is the page's, or
    text/plain when the page has none. *)
Theorem embed_keeps_page_headers
    (parseURL : string -> option URL) (request : Request) (context : Context)
    (archiveUrl originalUrl : string) :
  allowed_method request = true ->
  embed_validate parseURL request
    = inr (VString archiveUrl, VString originalUrl) ->
  200 <= status (next context) <= 599 ->
  null_body_status (status (next context)) = false ->
  exists response : Response string,
    embed parseURL request context = inr response
    /\ status response = status (next context)
    /\ response_headers response !! "access-control-allow-origin" = Some "*"
    /\ response_headers response !! "content-type"
       = Some (default "text/plain;charset=UTF-8"
                 (response_headers (next context) !! "content-type"))
    /\ forall name,
         name <> "access-control-allow-origin" -> name <> "content-type" ->
         response_headers response !! name
         = response_headers (next context) !! name.
Proof.
  intros Hallowed Hvalid Hstatus Hnull.
  unfold embed. rewrite Hallowed, Hvalid. cbn [negb].
  unfold embed_page, embed_format, new_text_Response, new_Response.
  cbn [init_status init_headers default from_option id Js.ToString].
  replace (status (next context) <? 200) with false by lia.
  replace (599 <? status (next context)) with false by lia.
  rewrite Hnull, andb_false_r. cbn [orb status response_headers body].
  eexists. split; [reflexivity|]. cbn [status response_headers].
  rewrite (embed_headers_lookup _ "content-type").
  cbn [String.eqb Ascii.eqb Bool.eqb andb].
  split; [reflexivity|].
  destruct (response_headers (next context) !! "content-type") as [t|] eqn:Ht.
  - split; [apply (embed_headers_lookup _ "access-control-allow-origin")|].
    split; [rewrite (embed_headers_lookup _ "content-type"); exact Ht|].
    intros name Hcors _. rewrite embed_headers_lookup.
    destruct (String.eqb_spec name "access-control-allow-origin"); congruence.
  - split; [rewrite lookup_insert_ne by discriminate;
            apply (embed_headers_lookup _ "access-control-allow-origin")|].
    split; [apply lookup_insert_eq|].
    intros name Hcors Htype. rewrite lookup_insert_ne by congruence.
    rewrite embed_headers_lookup.
    destruct (String.eqb_spec name "access-control-allow-origin"); congruence.
Qed.

Lemma embed_keeps_page_headers_witness :
  exists response : Response string,
    embed Sample.parseURL Sample.embed_request {| next := Sample.page |}
      = inr response
    /\ status response = status (next {| next := Sample.page |})
    /\ response_headers response !! "access-control-allow-origin" = Some "*"
    /\ response_headers response !! "content-type"
       = Some (default "text/plain;charset=UTF-8"
                 (response_headers (next {| next := Sample.page |})
                    !! "content-type"))
    /\ forall name,
         name <> "access-control-allow-origin" -> name <> "content-type" ->
         response_headers response !! name
         = response_headers (next {| next := Sample.page |}) !! name.
Proof.
  apply (embed_keeps_page_headers Sample.parseURL Sample.embed_request
           {| next := Sample.page |}
           "https://allowed.example/wacz/a.warc.gz" "https://example.org/");
    try reflexivity.
  cbn. lia.
Defined.

Lemma includes_char_app c a b :
  Str.includes (String c EmptyString) (a +:+ b)
  = Str.includes (String c EmptyString) a || Str.includes (String c EmptyString) b.
Proof.
  induction a as [|x a IH]; [reflexivity|].
  rewrite append_cons. cbn [Str.includes Str.startsWith]. rewrite IH.
  apply orb_assoc.
Qed.

Lemma archive_url_passes rep before post :
  Str.includes "{" post = false ->
  Str.replaceAll_from "{{original-url}}" rep 0 before
    ("{{archive-url}}" +:+ post)
  = "{{archive-url}}" +:+ post.
Proof.
  intros Hpost. rewrite !append_cons, append_nil.
  rewrite !replaceAll_pass by reflexivity.
  rewrite replaceAll_brace_free by exact Hpost. reflexivity.
Qed.

(** X21.  On a page that holds the two URL placeholders in a text without
    braces, URLs that contain neither a dollar sign nor a brace are put in
    their places as they are, and nothing else changes.  (A dollar sign in a
    URL is read by [replaceAll] as the start of a replacement pattern.) *)
Theorem urls_are_inserted_verbatim
    (archiveUrl originalUrl pre mid post : string) :
  Str.includes "$" archiveUrl = false ->
  Str.includes "$" originalUrl = false ->
  Str.includes "{" archiveUrl = false ->
  Str.includes "{" originalUrl = false ->
  Str.includes "{" pre = false ->
  Str.includes "{" mid = false ->
  Str.includes "{" post = false ->
  embed_page
    (pre +:+ "{{original-url}}" +:+ mid +:+ "{{archive-url}}" +:+ post)
    (VString archiveUrl) (VString originalUrl)
  = inr (pre +:+ originalUrl +:+ mid +:+ archiveUrl +:+ post).
Proof.
  intros Hda Hdo Hba Hbo Hpre Hmid Hpost.
  unfold embed_page, embed_format, Str.replaceAll. cbn [Js.ToString].
  (* the original URL *)
  destruct (replaceAll_brace_free_prefix "{original-url}}" originalUrl
              EmptyString pre
              ("{{original-url}}" +:+ mid +:+ "{{archive-url}}" +:+ post) Hpre)
    as (b1 & ->).
  destruct (original_url_replaced originalUrl b1
              (mid +:+ "{{archive-url}}" +:+ post) Hdo) as (b2 & ->).
  destruct (replaceAll_brace_free_prefix "{original-url}}" originalUrl
              b2 mid ("{{archive-url}}" +:+ post) Hmid) as (b3 & ->).
  rewrite archive_url_passes by exact Hpost.
  (* the archive URL *)
  assert (Hhead : Str.includes "{" (pre +:+ originalUrl +:+ mid) = false)
    by (rewrite !includes_char_app, Hpre, Hbo, Hmid; reflexivity).
  replace (pre +:+ originalUrl +:+ mid +:+ "{{archive-url}}" +:+ post)
    with ((pre +:+ originalUrl +:+ mid) +:+ "{{archive-url}}" +:+ post)
    by (rewrite !append_assoc; reflexivity).
  destruct (replaceAll_brace_free_prefix "{archive-url}}" archiveUrl
              EmptyString (pre +:+ originalUrl +:+ mid)
              ("{{archive-url}}" +:+ post) Hhead) as (b4 & ->).
  destruct (archive_url_replaced archiveUrl b4 post Hda) as (b5 & ->).
  rewrite (replaceAll_brace_free "{archive-url}}") by exact Hpost.
  (* the format *)
  rewrite (replaceAll_brace_free "{format}}").
  - rewrite !append_assoc. reflexivity.
  - rewrite !includes_char_app, Hpre, Hbo, Hmid, Hba, Hpost. reflexivity.
Qed.

Lemma urls_are_inserted_verbatim_witness :
  embed_page
    ("<a href=" +:+ "{{original-url}}" +:+ "> <replay source="
       +:+ "{{archive-url}}" +:+ ">")
    (VString "https://allowed.example/a.wacz") (VString "https://example.org/")
  = inr ("<a href=" +:+ "https://example.org/" +:+ "> <replay source="
           +:+ "https://allowed.example/a.wacz" +:+ ">").
Proof.
  apply (urls_are_inserted_verbatim "https://allowed.example/a.wacz"
           "https://example.org/" "<a href=" "> <replay source=" ">");
    reflexivity.
Defined.

(** *** The headers of a transferred archive *)

Lemma archive_headers_by_extension ext :
  archive_headers ext !! "content-type"
    = Some (VString (if String.eqb ext ".wacz" then "binary/octet-stream"
                     else "application/x-gzip"))
  /\ archive_headers ext !! "content-disposition"
     = Some (VString (attachment (if String.eqb ext ".wacz" then "archive.wacz"
                                  else "archive.warc.gz"))).
Proof.
  unfold archive_headers. destruct (String.eqb ext ".wacz"); split; reflexivity.
Qed.

(** The four headers set before the transfer are still there after the
    headers of the transfer are added. *)
Lemma fixed_headers_kept (h h' : HeaderObject) :
  (forall name,
     name <> "content-length" -> name <> "content-range" -> name <> "etag" ->
     h' !! name = h !! name) ->
  forall name v,
    name <> "content-length" -> name <> "content-range" -> name <> "etag" ->
    h !! name = Some (VString v) ->
    (Js.ToString <$> h') !! name = Some v.
Proof.
  intros Hsame name v H1 H2 H3 Hv.
  rewrite lookup_fmap, Hsame, Hv by assumption. reflexivity.
Qed.

(** X22.  Every response that [archive.js] returns after a transfer, on
    either path, allows any origin, accepts byte ranges, and carries the
    content type and the file name that go with the extension of the
    archive. *)
Theorem transferred_archive_headers
    (parseURL : string -> option URL) (allowlist : list string) (net : Network)
    (request : Request) (archiveUrl : Value) (ext : string)
    (response : Response ArrayBuffer) (probe transfer : FetchCall) :
  allowed_method request = true ->
  archive_validate parseURL allowlist request = inr (archiveUrl, ext) ->
  run (archive parseURL allowlist request) net
    = (inr response, [probe; transfer]) ->
  response_headers response !! "access-control-allow-origin" = Some "*"
  /\ response_headers response !! "accept-ranges" = Some "bytes"
  /\ response_headers response !! "content-type"
     = Some (if String.eqb ext ".wacz" then "binary/octet-stream"
             else "application/x-gzip")
  /\ response_headers response !! "content-disposition"
     = Some (attachment (if String.eqb ext ".wacz" then "archive.wacz"
                         else "archive.warc.gz")).
Proof.
  intros Hallowed Hvalid Hrun.
  destruct (archive_headers_lookup ext) as (Hcors & Har & _ & _).
  destruct (archive_headers_by_extension ext) as (Htype & Hname).
  assert (Hgoal : forall h' : HeaderObject,
    (forall name,
       name <> "content-length" -> name <> "content-range" -> name <> "etag" ->
       h' !! name = archive_headers ext !! name) ->
    response_headers response = Js.ToString <$> h' ->
    response_headers response !! "access-control-allow-origin" = Some "*"
    /\ response_headers response !! "accept-ranges" = Some "bytes"
    /\ response_headers response !! "content-type"
       = Some (if String.eqb ext ".wacz" then "binary/octet-stream"
               else "application/x-gzip")
    /\ response_headers response !! "content-disposition"
       = Some (attachment (if String.eqb ext ".wacz" then "archive.wacz"
                           else "archive.warc.gz"))).
  { intros h' Hsame ->.
    repeat split;
      apply (fixed_headers_kept (archive_headers ext) h' Hsame);
      (discriminate || assumption). }
  destruct (net 0%nat (probe_call archiveUrl)) as [|probed] eqn:Hprobe.
  { rewrite (archive_probe_failure _ _ _ _ _ _ Hallowed Hvalid Hprobe) in Hrun.
    discriminate. }
  rewrite (archive_dispatch _ _ _ _ _ _ _ Hallowed Hvalid Hprobe) in Hrun.
  destruct (supportsRange probed).
  - destruct (net 1%nat (passthrough_call archiveUrl request)) as [|served]
      eqn:Hserved.
    { unfold archive_passthrough, bind, fetch in Hrun. cbn [length] in Hrun.
      fold (passthrough_call archiveUrl request) in Hrun.
      rewrite Hserved in Hrun. discriminate. }
    rewrite (passthrough_run net request archiveUrl (archive_headers ext) served
               [probe_call archiveUrl] Hserved) in Hrun.
    unfold new_Response in Hrun.
    destruct (_ || _) in Hrun; [discriminate|].
    destruct (_ && _) in Hrun; [discriminate|].
    injection Hrun as <- _ _. cbn [response_headers].
    eapply Hgoal; [|reflexivity]. intros name H1 H2 H3.
    rewrite copy_content_range_other, copy_etag_other by assumption.
    apply lookup_insert_ne. congruence.
  - unfold archive_polyfill, bind, fetch in Hrun. cbn [length] in Hrun.
    destruct (net 1%nat _) as [|served] in Hrun; [discriminate|].
    unfold lift, new_Response in Hrun.
    cbn [init_status init_headers init_with_headers default from_option id]
      in Hrun.
    change (206 <? 200) with false in Hrun.
    change (599 <? 206) with false in Hrun.
    change (null_body_status 206) with false in Hrun.
    rewrite andb_false_r in Hrun. cbn [orb] in Hrun.
    injection Hrun as <- _ _. cbn [response_headers].
    eapply Hgoal; [|reflexivity]. intros name H1 H2 H3.
    rewrite copy_etag_other by assumption.
    rewrite !lookup_insert_ne by congruence. reflexivity.
Qed.

Lemma transferred_archive_headers_witness :
  response_headers sample_warc_gz_answer !! "access-control-allow-origin"
    = Some "*"
  /\ response_headers sample_warc_gz_answer !! "accept-ranges" = Some "bytes"
  /\ response_headers sample_warc_gz_answer !! "content-type"
     = Some (if String.eqb ".warc.gz" ".wacz" then "binary/octet-stream"
             else "application/x-gzip")
  /\ response_headers sample_warc_gz_answer !! "content-disposition"
     = Some (attachment (if String.eqb ".warc.gz" ".wacz" then "archive.wacz"
                         else "archive.warc.gz")).
Proof.
  apply (transferred_archive_headers Sample.parseURL Sample.allowlist
           Sample.sized_origin (Sample.request "GET" Sample.warc_gz_url ∅)
           (VString Sample.warc_gz_url) ".warc.gz" sample_warc_gz_answer
           (probe_call (VString Sample.warc_gz_url))
           (polyfill_call (VString Sample.warc_gz_url) "GET"));
    reflexivity.
Defined.
